(** * P-Raft: predictive leader placement

    A shallow embedding of the leader-placement scripts of P-Raft and the
    properties of their cost model, artifact watcher, decision log and
    migration step.

    Programs
    - [Tables]        : the hard-coded address, latency and identity tables
                        shared by [moveleader.py] and [predict_leader.py];
    - [MoveLeader]    : [etcd-release-3.4/moveleader.py], the quorum-aware
                        cost model over integer request counts;
    - [Logger]        : [leader_logger.py], the buffered decision log;
    - [Reloader]      : [ModelReloader] and [ReloadWorker] of
                        [predict_leader.py];
    - [PredictLeader] : the cost model, the migration step and the control
                        loop of [predict_leader.py];
    - [CostSpec]      : the cost formulas in the words of the specification.

    - [MoveLeaderMigration] : the migration step of [moveleader.py];
    - [Projector]     : [build_domains_from_pred_mean] of [predict_leader.py];
    - [ControlLoop]   : the [while True] loop of [main] over its passes;
    - [LoggerRuns]    : any sequence of calls of [record].

    Properties
    - [ListFacts], [MoveLeaderFacts], [PredictLeaderFacts], [LoggerFacts],
      [ReloaderFacts], [CostFormula];
    - [TablesFacts], [LoggerRunsFacts], [MoveLeaderMore],
      [MoveLeaderMigrationFacts], [PredictLeaderMore], [ControlLoopFacts],
      [ProjectorFacts], [PipelineFacts], [LocalLoadFacts], [ReloaderMore],
      [Remaining].

    Conventions.  Python [int] is [Z].  A float that carries a request rate
    or a clock reading is a rational.  [math.inf] and [float("inf")] are the
    constructor [Inf] of [ext].  A [dict] written as a literal with string
    keys is an association list in the order of the literal.  Where a
    function may return [None], a tuple or an instance in place of each
    other, its result is a [pyval].  Calls that leave the process (files,
    [scp], [etcdctl]) are recorded as a list of effects, and what the outside
    answers is an argument of the function that makes the call. *)

From Stdlib Require Import ZArith List String Ascii Bool Lia.
From Stdlib Require Import Permutation Sorting.Sorted Sorting.Mergesort Orders.
From Stdlib Require Import QArith Qround Lqa.
Import ListNotations.

Local Open Scope Z_scope.

(** ** Shared helpers *)

(** [d.get(k)] / [k in d] for a dict written as a literal. *)
Fixpoint dict_get {V : Type} (d : list (string * V)) (k : string) : option V :=
  match d with
  | [] => None
  | (k', v) :: rest => if String.eqb k k' then Some v else dict_get rest k
  end.

Definition dict_mem {V : Type} (d : list (string * V)) (k : string) : bool :=
  match dict_get d k with Some _ => true | None => false end.

(** [d.get(k, default)]. *)
Definition dict_get_default {V : Type} (d : list (string * V)) (k : string)
    (default : V) : V :=
  match dict_get d k with Some v => v | None => default end.

(** A number that may be [math.inf]. *)
Inductive ext : Type :=
| Fin (z : Z)
| Inf.

(** [z < e] for an integer [z] and a possibly infinite [e]. *)
Definition lt_ext (z : Z) (e : ext) : bool :=
  match e with Inf => true | Fin m => z <? m end.

(** [sum(...)] over integers. *)
Definition zsum (l : list Z) : Z := fold_right Z.add 0 l.

(** [list.sort()] on integers: the sorted rearrangement of the list. *)
Module ZOrder <: TotalLeBool.

Definition t := Z.

Definition leb := Z.leb.

Theorem leb_total : forall a1 a2, leb a1 a2 = true \/ leb a2 a1 = true.
Proof.
  intros a1 a2. unfold leb.
  destruct (Z.leb_spec a1 a2); [left | right]; auto.
  apply Z.leb_le. lia.
Qed.

End ZOrder.

Module ZSort := Sort ZOrder.

(** ** The hard-coded tables of [OptimalLeaderCalculator.__init__] *)

Module Tables.

Definition ip_to_index : list (string * nat) :=
  [ ("192.168.0.38"%string, 0%nat);
    ("192.168.0.82"%string, 1%nat);
    ("192.168.0.223"%string, 2%nat) ].

Definition latency_matrix : list (list Z) :=
  [ [0; 30; 40];
    [30; 0; 50];
    [40; 50; 0] ].

Definition IpToId : list (string * string) :=
  [ ("192.168.0.38:2379", "933ca51d2bb602b8");
    ("192.168.0.38:3379", "6181f76d6668aeb0");
    ("192.168.0.38:4379", "69948e3d245f62b7");
    ("192.168.0.82:2379", "b92b49a4de72942d");
    ("192.168.0.82:3379", "3cdaf029c87a002");
    ("192.168.0.82:4379", "5b3ba363fb10d52f");
    ("192.168.0.223:2379", "69f554c3f7f50a72");
    ("192.168.0.223:3379", "8861d1f6a0217629");
    ("192.168.0.223:4379", "512e070e8eb32959") ]%string.

Definition node_id_to_ip : list (string * string) :=
  [ ("933ca51d2bb602b8", "192.168.0.38");
    ("6181f76d6668aeb0", "192.168.0.38");
    ("69948e3d245f62b7", "192.168.0.38");
    ("b92b49a4de72942d", "192.168.0.82");
    ("3cdaf029c87a002", "192.168.0.82");
    ("5b3ba363fb10d52f", "192.168.0.82");
    ("69f554c3f7f50a72", "192.168.0.223");
    ("8861d1f6a0217629", "192.168.0.223");
    ("512e070e8eb32959", "192.168.0.223") ]%string.

(** [get_latency]: 999 for an address outside [ip_to_index], else the matrix
    entry.  The indices stored in [ip_to_index] are 0, 1 and 2 and the matrix
    is 3 by 3, so the two subscripts never leave the matrix. *)
Definition get_latency (from_ip to_ip : string) : Z :=
  if negb (dict_mem ip_to_index from_ip) || negb (dict_mem ip_to_index to_ip)
  then 999
  else
    let from_idx := dict_get_default ip_to_index from_ip 0%nat in
    let to_idx := dict_get_default ip_to_index to_ip 0%nat in
    nth to_idx (nth from_idx latency_matrix []) 0.

End Tables.

(** ** [moveleader.py] *)

Module MoveLeader.

Import Tables.

(** [class Domain]: the request counts are parsed with [int(...)]. *)
Record Domain : Type := mkDomain {
  id : string;
  address : string;
  nodes : Z;
  read_requests : Z;
  write_requests : Z
}.

(** What [find_optimal_leader] may hand back. *)
Inductive pyval : Type :=
| PyNone
| PyDomain (d : Domain)
| PyNum (e : ext)
| PyTuple (a b : pyval).

(** The [for] loop of [calculate_commit_latency] that collects the latency
    from the leader to every domain whose id differs from the leader's. *)
Fixpoint peer_latencies (leader_domain : Domain) (domains : list Domain)
    : list Z :=
  match domains with
  | [] => []
  | domain :: rest =>
      if negb (String.eqb (id domain) (id leader_domain))
      then get_latency (address leader_domain) (address domain)
             :: peer_latencies leader_domain rest
      else peer_latencies leader_domain rest
  end.

Definition calculate_commit_latency (leader_domain : Domain)
    (domains : list Domain) (quorum_size : Z) : ext :=
  let latencies := ZSort.sort (peer_latencies leader_domain domains) in
  let followers_needed := quorum_size - 1 in
  if followers_needed >? Z.of_nat (List.length latencies) then Inf
  else if followers_needed <=? 0 then Fin 0
  else Fin (nth (Z.to_nat (followers_needed - 1)) latencies 0).

(** One pass of the loop body of [calculate_total_latency] over the two
    accumulators [(total_latency, total_write_requests)]. *)
Definition total_step (leader_domain : Domain) (acc : Z * Z) (domain : Domain)
    : Z * Z :=
  let '(total_latency, total_write_requests) := acc in
  let read_latency :=
    if String.eqb (id domain) (id leader_domain) then 0
    else get_latency (address leader_domain) (address domain) in
  (total_latency + read_requests domain * read_latency,
   total_write_requests + write_requests domain).

Definition calculate_total_latency (leader_domain : Domain)
    (domains : list Domain) (commit_latency : Z) : Z :=
  let '(total_latency, total_write_requests) :=
    fold_left (total_step leader_domain) domains (0, 0) in
  let write_latency_component := commit_latency * total_write_requests in
  total_latency + write_latency_component.

(** [math.floor(total_nodes / 2) + 1].  The quotient is a float: for a
    total of at most [2^53] in absolute value it is exact and its floor is
    the floored integer quotient, as here; above that the float quotient
    may round, and beyond the float range the division raises
    [OverflowError] ([FloatRange.exact_total] names the exact range). *)
Definition quorum_of (domains : list Domain) : Z :=
  let total_nodes := zsum (map nodes domains) in
  total_nodes / 2 + 1.

(** One pass of the candidate loop of [find_optimal_leader] over
    [(min_total_latency, optimal_leader)]; [all] is the whole list. *)
Definition search_step (all : list Domain) (quorum_size : Z)
    (acc : ext * option Domain) (leader_candidate : Domain)
    : ext * option Domain :=
  let '(min_total_latency, optimal_leader) := acc in
  match calculate_commit_latency leader_candidate all quorum_size with
  | Inf => acc
  | Fin commit_latency =>
      let total_latency :=
        calculate_total_latency leader_candidate all commit_latency in
      if lt_ext total_latency min_total_latency
      then (Fin total_latency, Some leader_candidate)
      else acc
  end.

Definition search (domains : list Domain) : ext * option Domain :=
  fold_left (search_step domains (quorum_of domains)) domains (Inf, None).

(** [find_optimal_leader].  The empty list returns a bare [None].  The final
    statement is [return optimal_leader, min_total_latency if optimal_leader
    else (None, None)]: the conditional expression binds tighter than the
    comma, so the result is always a pair whose second component is the
    conditional. *)
Definition find_optimal_leader (domains : list Domain) : pyval :=
  match domains with
  | [] => PyNone
  | _ =>
      let '(min_total_latency, optimal_leader) := search domains in
      match optimal_leader with
      | Some d => PyTuple (PyDomain d) (PyNum min_total_latency)
      | None => PyTuple PyNone (PyTuple PyNone PyNone)
      end
  end.

(** The fixture of the three sites. *)
Definition dA : Domain := mkDomain "A" "192.168.0.38" 1 10 5.
Definition dB : Domain := mkDomain "B" "192.168.0.82" 1 2 1.
Definition dC : Domain := mkDomain "C" "192.168.0.223" 1 1 1.
Definition fixture : list Domain := [dA; dB; dC].

(** Two idle sites, and one site that carries three votes. *)
Definition idleB : Domain := mkDomain "B" "192.168.0.82" 1 0 0.
Definition idleC : Domain := mkDomain "C" "192.168.0.223" 1 0 0.
Definition heavy : Domain := mkDomain "a" "192.168.0.38" 3 1 1.

End MoveLeader.

(** ** [leader_logger.py] *)

Module Logger.

(** A CSV row is the list of its fields. *)
Definition row : Type := list string.

(** The calls that touch the disk, in the order they are made. *)
Inductive disk_op : Type :=
| MakeDirsFor (path : string)          (* os.makedirs(dirname(path), exist_ok=True) *)
| CreateWithHeader (path : string)     (* open(path, "w") and the header row *)
| AppendRows (path : string) (rows : list row).  (* open(path, "a"), writerows *)

(** The writer object together with the file it writes: [file] is [None]
    while the CSV does not exist, else its rows from the top, each a line
    that [csv.writer] wrote and terminated.  The disk calls are taken to
    succeed; that is so for [os.makedirs] only when [csv_path] has a
    directory part ([has_directory]), as the log paths of the scripts
    have, since [os.makedirs] raises [FileNotFoundError] on the empty
    string. *)
Record state : Type := mkState {
  csv_path : string;
  buffer : list row;
  file : option (list row);
  ops : list disk_op
}.

(** [BufferedPredictedLeaderWriter(csv_path)] next to a disk on which the CSV
    is [file0]. *)
Definition init (path : string) (file0 : option (list row)) : state :=
  mkState path [] file0 [].

Definition header : row := ["timestamp"; "predicted_leader_ip"]%string.







(** [_ensure_file], for a path that [has_directory]. *)
Definition _ensure_file (st : state) : state :=
  let st1 := mkState (csv_path st) (buffer st) (file st)
                     (ops st ++ [MakeDirsFor (csv_path st)]) in
  match file st1 with
  | None =>
      mkState (csv_path st1) (buffer st1) (Some [header])
              (ops st1 ++ [CreateWithHeader (csv_path st1)])
  | Some _ => st1
  end.

Definition _flush_buffer (st : state) : state :=
  match buffer st with
  | [] => st
  | _ :: _ =>
      let st1 := _ensure_file st in
      let content := match file st1 with Some rows => rows | None => [] end in
      mkState (csv_path st1) []
              (Some (content ++ buffer st1))
              (ops st1 ++ [AppendRows (csv_path st1) (buffer st1)])
  end.

(** [record(leader_ip, will_move)]; [now] is the string that
    [time.strftime] yields at the call. *)
Definition record (now leader_ip : string) (will_move : bool) (st : state)
    : state :=
  let row := [now; leader_ip] in
  let st1 := mkState (csv_path st) (buffer st ++ [row]) (file st) (ops st) in
  if negb will_move then st1 else _flush_buffer st1.






End Logger.

(** ** [ModelReloader] and [ReloadWorker] of [predict_leader.py] *)

Module Reloader.

Section Watcher.

(** A signature is the dict that [_signature] builds; the watcher only ever
    compares two of them with [==]. *)
Variable signature : Type.
Variable sig_eqb : signature -> signature -> bool.

(** [ModelReloader]: timestamps are the values of [time.time()], taken as
    rationals; 0 stands for "no pending change". *)
Record guard : Type := mkGuard {
  debounce : Q;
  last_sig : signature;
  last_seen_change_ts : Q
}.

(** [changed_and_stable]: [cur] is what [_signature()] reads and [now] what
    [time.time()] returns during the call. *)
Definition changed_and_stable (g : guard) (cur : signature) (now : Q)
    : guard * bool :=
  if sig_eqb cur (last_sig g)
  then (mkGuard (debounce g) (last_sig g) 0, false)
  else if Qeq_bool (last_seen_change_ts g) 0
  then (mkGuard (debounce g) (last_sig g) now, false)
  else if Qle_bool (debounce g) (now - last_seen_change_ts g)
  then (g, true)
  else (g, false).

(** [mark_loaded]: [cur] is what [_signature()] reads during the call. *)
Definition mark_loaded (g : guard) (cur : signature) : guard :=
  mkGuard (debounce g) cur 0.

(** What one pass of the loop of [ReloadWorker.run] meets: the signature read
    by [changed_and_stable], the clock, whether [self.ctor()] returns a
    forecaster or raises, and the signature read by [mark_loaded]. *)
Record poll : Type := mkPoll {
  poll_sig : signature;
  poll_now : Q;
  ctor_ok : bool;
  poll_sig_at_mark : signature
}.

(** [ReloadWorker]: its guard, how often [changed_and_stable] answered
    [True], and how often [holder.set] replaced the forecaster. *)
Record worker : Type := mkWorker {
  wguard : guard;
  triggered : nat;
  swapped : nat
}.

(** [ReloadWorker.__init__]: a fresh [ModelReloader] whose signature is
    [loaded], then [mark_loaded] reading [loaded] again. *)
Definition worker_init (debounce_sec : Q) (loaded : signature) : worker :=
  mkWorker (mark_loaded (mkGuard debounce_sec loaded 0) loaded) 0 0.

(** The body of the [while] loop of [run]; an exception of [self.ctor()] is
    caught and leaves holder and guard as they are. *)
Definition run_step (w : worker) (p : poll) : worker :=
  let '(g, fire) := changed_and_stable (wguard w) (poll_sig p) (poll_now p) in
  if fire then
    if ctor_ok p
    then mkWorker (mark_loaded g (poll_sig_at_mark p))
                  (S (triggered w)) (S (swapped w))
    else mkWorker g (S (triggered w)) (swapped w)
  else mkWorker g (triggered w) (swapped w).

(** [run] until the stop event is seen, over the polls made meanwhile. *)
Definition run (w : worker) (polls : list poll) : worker :=
  fold_left run_step polls w.

End Watcher.

Arguments mkGuard {signature} _ _ _.
Arguments debounce {signature} _.
Arguments last_sig {signature} _.
Arguments last_seen_change_ts {signature} _.
Arguments mark_loaded {signature} _ _.
Arguments mkPoll {signature} _ _ _ _.
Arguments poll_sig {signature} _.
Arguments poll_now {signature} _.
Arguments ctor_ok {signature} _.
Arguments poll_sig_at_mark {signature} _.
Arguments mkWorker {signature} _ _ _.
Arguments wguard {signature} _.
Arguments triggered {signature} _.
Arguments swapped {signature} _.
Arguments worker_init {signature} _ _.
Arguments changed_and_stable {signature} _ _ _ _.
Arguments run_step {signature} _ _ _.
Arguments run {signature} _ _ _.

(** Polls over signatures named by a version string: the artifact as loaded
    is [v1], the replaced artifact is [v2]; [broken_poll] meets a constructor
    that raises. *)
Definition old_poll (now : Q) : poll string := mkPoll "v1"%string now true "v1"%string.
Definition new_poll (now : Q) : poll string := mkPoll "v2"%string now true "v2"%string.
Definition broken_poll (now : Q) : poll string :=
  mkPoll "v2"%string now false "v2"%string.

End Reloader.

(** ** [predict_leader.py]: cost model, migration step and control loop *)

Module PredictLeader.

Import Tables.

Local Open Scope string_scope.

(** [class Domain]: the projected request rates are floats, taken here as
    rationals.  A rational stands for a finite float only; the sums and
    products below are those of the floats where these do not round, which
    is so for the whole-number rates of [FloatRange.exact_rate]. *)
Record Domain : Type := mkDomain {
  id : string;
  address : string;
  nodes : Z;
  read_requests : Q;
  write_requests : Q
}.

(** [int(x)] on a float: rounding toward zero. *)
Definition int_of (x : Q) : Z :=
  if Qle_bool 0 x then Qfloor x else Qceiling x.

(** One pass of the loop body of [calculate_total_latency].  The sum and the
    product are exact here; the float ones of the script round to 53 bits,
    so the two agree on rates for which no rounding occurs. *)
Definition total_step (leader_domain : Domain) (total_latency : Z)
    (domain : Domain) : Z :=
  let latency :=
    if String.eqb (id domain) (id leader_domain) then 0%Z
    else get_latency (address leader_domain) (address domain) in
  let total_req := (read_requests domain + write_requests domain)%Q in
  (total_latency + int_of (total_req * inject_Z latency))%Z.

Definition calculate_total_latency (leader_domain : Domain)
    (domains : list Domain) : Z :=
  fold_left (total_step leader_domain) domains 0%Z.

(** One pass of the candidate loop of [find_optimal_leader] over
    [(best, best_cost)]. *)
Definition search_step (all : list Domain) (acc : option Domain * ext)
    (cand : Domain) : option Domain * ext :=
  let '(best, best_cost) := acc in
  let cost := calculate_total_latency cand all in
  if lt_ext cost best_cost then (Some cand, Fin cost) else acc.

(** [find_optimal_leader]: [(None, None)] for the empty list, else
    [(best, best_cost)].  [quorum_size] is computed and printed, and used
    nowhere: its float division returns for every node total within the
    float range, which [FloatRange.exact_domains] assumes, and raises
    [OverflowError] beyond it. *)
Definition find_optimal_leader (domains : list Domain)
    : option Domain * option ext :=
  match domains with
  | [] => (None, None)
  | _ =>
      let '(best, best_cost) :=
        fold_left (search_step domains) domains (None, Inf) in
      (best, Some best_cost)
  end.

(** *** The migration step *)

(** How a [subprocess.run(..., check=True)] ends: exit status 0, a non-zero
    exit status ([CalledProcessError]), or the program cannot be started
    ([FileNotFoundError]). *)
Inductive proc : Type :=
| Exit0
| ExitNonZero
| CannotStart.

Inductive exn : Type :=
| FileNotFoundError
| CalledProcessError.

Inductive outcome (A : Type) : Type :=
| Returned (a : A)
| Raised (e : exn).
Arguments Returned {A} a.
Arguments Raised {A} e.

(** What the collaborators do during one migration: whether the local
    snapshot exists, and how [scp] and [etcdctl] end. *)
Record collaborators : Type := mkCollab {
  snapshot_exists : bool;
  scp_exit : proc;
  etcdctl_exit : proc
}.

(** The calls that leave the process, in the order they are made. *)
Inductive effect : Type :=
| RunScp (argv : list string)
| RunEtcdctl (argv : list string)
| TimingRow (status : string)
| RemoveFile (path : string)
| MetricsRow (rounds : Z).

Definition raise_of (p : proc) : exn :=
  match p with
  | CannotStart => FileNotFoundError
  | _ => CalledProcessError
  end.

(** [scp_to_host(local_file, host, remote_path)] with the default user,
    port and key. *)
Definition scp_to_host (c : collaborators) (local_file host remote_path : string)
    : list effect * outcome unit :=
  if negb (snapshot_exists c) then ([], Raised FileNotFoundError)
  else
    let scp_cmd := ["scp"; local_file; "root@" ++ host ++ ":" ++ remote_path] in
    match scp_exit c with
    | Exit0 => ([RunScp scp_cmd], Returned tt)
    | p => ([RunScp scp_cmd], Raised (raise_of p))
    end.

(** [move_leader_with_timing(cmd)]: a [CalledProcessError] is caught and
    becomes the status [failed] of the timing row; the elapsed time that is
    returned is not used by the caller. *)
Definition move_leader_with_timing (c : collaborators) (cmd : list string)
    : list effect * outcome unit :=
  match etcdctl_exit c with
  | Exit0 => ([RunEtcdctl cmd; TimingRow "success"], Returned tt)
  | ExitNonZero => ([RunEtcdctl cmd; TimingRow "failed"], Returned tt)
  | CannotStart => ([RunEtcdctl cmd], Raised FileNotFoundError)
  end.

Definition snapshot_path : string := "/etcd/etcd-release-3.4/raft_stats.csv".

(** [check_and_transfer_leader(current_leader_ip, optimal_leader_ip)]. *)
Definition check_and_transfer_leader (c : collaborators)
    (current_leader_ip optimal_leader_ip : string)
    : list effect * outcome Z :=
  let local_path := snapshot_path in
  let remote_path := snapshot_path in
  let endpoint := optimal_leader_ip ++ ":2379" in
  match scp_to_host c local_path optimal_leader_ip remote_path with
  | (e1, Raised x) => (e1, Raised x)
  | (e1, Returned _) =>
      let current_leader_url := current_leader_ip ++ ":2379" in
      let cmd :=
        [ "/etcd/etcd-release-3.4/bin/etcdctl";
          "--endpoints=" ++ current_leader_url;
          "move-leader";
          dict_get_default IpToId endpoint "unknown" ] in
      match move_leader_with_timing c cmd with
      | (e2, Raised x) => ((e1 ++ e2)%list, Raised x)
      | (e2, Returned _) =>
          ((e1 ++ e2 ++ [RemoveFile local_path])%list, Returned 1%Z)
      end
  end.

(** The command that [check_and_transfer_leader] hands to [etcdctl]. *)
Definition transfer_argv (current_leader_ip optimal_leader_ip : string)
    : list string :=
  [ "/etcd/etcd-release-3.4/bin/etcdctl";
    "--endpoints=" ++ current_leader_ip ++ ":2379";
    "move-leader";
    dict_get_default Tables.IpToId (optimal_leader_ip ++ ":2379") "unknown" ].

(** Is the local snapshot still on disk after these effects? *)
Definition snapshot_left (c : collaborators) (effects : list effect) : bool :=
  snapshot_exists c
  && negb (existsb (fun e => match e with
                             | RemoveFile p => String.eqb p snapshot_path
                             | _ => false
                             end) effects).

(** *** The control loop *)

(** The machine the process runs on: the address its own socket reports, and
    the address of the replica that holds leadership in the cluster. *)
Record host : Type := mkHost {
  detected_ip : string;
  cluster_leader_ip : string
}.

(** [get_current_leader_ip]: the local address of a datagram socket
    connected toward 8.8.8.8. *)
Definition get_current_leader_ip (h : host) : string := detected_ip h.

(** What [forecaster.predict] and [build_domains_from_pred_mean] yield in one
    tick: an exception, an empty frame, or the domains built from the column
    means of a non-empty frame. *)
Inductive forecast : Type :=
| Raises
| EmptyFrame
| Projected (domains : list Domain).

(** [run_once_and_decide]: [(is_self_optimal, optimal_ip)], or the exception
    of the forecaster. *)
Definition run_once_and_decide (f : forecast) (self_ip : string)
    : option (bool * option string) :=
  match f with
  | Raises => None
  | EmptyFrame => Some (true, None)
  | Projected [] => Some (true, None)
  | Projected domains =>
      match fst (find_optimal_leader domains) with
      | None => Some (true, None)
      | Some optimal =>
          let optimal_ip := address optimal in
          let is_self := String.eqb optimal_ip self_ip in
          Some (is_self, Some optimal_ip)
      end
  end.

(** [not optimal_ip] for a value that is [None] or a string. *)
Definition falsy (s : option string) : bool :=
  match s with
  | None => true
  | Some "" => true
  | Some _ => false
  end.

(** The decision of [main] between the [try] block and [logger.record]:
    [(will_move, leader_for_log)]. *)
Definition decide (self_ip : string) (is_self : bool)
    (optimal_ip : option string) : bool * string :=
  let will_move := negb is_self in
  let will_move := if will_move && falsy optimal_ip then false else will_move in
  let leader_for_log :=
    if negb will_move then self_ip
    else match optimal_ip with Some ip => ip | None => "" end in
  (will_move, leader_for_log).

Definition MAX_ITERS : Z := 0.

(** What one pass of the [while True] loop meets. *)
Record tick_input : Type := mkTick {
  tick_forecast : forecast;
  tick_clock : string;           (* the time string of [logger.record] *)
  tick_collab : collaborators
}.

Record loop_state : Type := mkLoop {
  logger : Logger.state;
  it : Z;
  rounds : Z
}.

(** How a pass ends: [continue] after the sleep, [break] at the iteration
    cap, [break] after a migration that returned, or the exception of
    [check_and_transfer_leader] leaving [main]. *)
Inductive tick_end : Type :=
| Continue
| BreakMaxIters
| BreakMigrated (effects : list effect)
| Crashed (effects : list effect) (e : exn).

(** One pass of the [while True] loop of [main]. *)
Definition tick (h : host) (st : loop_state) (i : tick_input)
    : loop_state * tick_end :=
  let self_ip := get_current_leader_ip h in
  let it1 := (it st + 1)%Z in
  let '(is_self, optimal_ip, rounds1) :=
    match run_once_and_decide (tick_forecast i) self_ip with
    | Some (is_self, optimal_ip) => (is_self, optimal_ip, (rounds st + 1)%Z)
    | None => (true, None, rounds st)
    end in
  let '(will_move, leader_for_log) := decide self_ip is_self optimal_ip in
  let logger1 :=
    Logger.record (tick_clock i) leader_for_log will_move (logger st) in
  let st1 := mkLoop logger1 it1 rounds1 in
  if negb will_move then
    if (MAX_ITERS >? 0)%Z && (it1 >=? MAX_ITERS)%Z
    then (st1, BreakMaxIters)
    else (st1, Continue)
  else
    let optimal := match optimal_ip with Some ip => ip | None => "" end in
    match check_and_transfer_leader (tick_collab i) self_ip optimal with
    | (effects, Returned _) =>
        (st1, BreakMigrated (effects ++ [MetricsRow rounds1])%list)
    | (effects, Raised e) => (st1, Crashed effects e)
    end.

(** The effects of a pass. *)
Definition effects_of (e : tick_end) : list effect :=
  match e with
  | BreakMigrated effects => effects
  | Crashed effects _ => effects
  | _ => []
  end.

(** Did the pass reach the migration call of [main]? *)
Definition entered_migration (e : tick_end) : bool :=
  match e with
  | BreakMigrated _ | Crashed _ _ => true
  | _ => false
  end.

(** Is this effect an [etcdctl] command? *)
Definition is_transfer_command (e : effect) : bool :=
  match e with RunEtcdctl _ => true | _ => false end.

(** The fixture of the three sites, with the rates as floats. *)
Definition dA : Domain := mkDomain "A" "192.168.0.38" 1 10 5.
Definition dB : Domain := mkDomain "B" "192.168.0.82" 1 2 1.
Definition dC : Domain := mkDomain "C" "192.168.0.223" 1 1 1.
Definition fixture : list Domain := [dA; dB; dC].

(** A process on 192.168.0.223 while 192.168.0.82 leads the cluster. *)
Definition host223 : host := mkHost "192.168.0.223" "192.168.0.82".

(** The loop state before the first pass, the decision log not yet on disk. *)
Definition fresh_loop : loop_state :=
  mkLoop (Logger.init "/etcd/etcd-release-3.4/predicted_leaderA.csv" None) 0 0.

(** Collaborators that all succeed, and collaborators of which [etcdctl]
    exits with a non-zero status. *)
Definition all_well : collaborators := mkCollab true Exit0 Exit0.
Definition transfer_refused : collaborators := mkCollab true Exit0 ExitNonZero.

End PredictLeader.

(** ** [moveleader.py]: the migration step *)

Module MoveLeaderMigration.

Import PredictLeader.

Local Open Scope string_scope.

(** [scp_to_host(local_file, host, remote_path)] with the default user, port
    and key; the [return] after the [raise] is never reached. *)
Definition scp_to_host (c : collaborators) (local_file host remote_path : string)
    : list effect * outcome unit :=
  if negb (snapshot_exists c) then ([], Raised FileNotFoundError)
  else
    let scp_cmd := ["scp"; local_file; "root@" ++ host ++ ":" ++ remote_path] in
    match scp_exit c with
    | Exit0 => ([RunScp scp_cmd], Returned tt)
    | p => ([RunScp scp_cmd], Raised (raise_of p))
    end.

(** [check_and_transfer_leader(current_leader_ip, optimal_leader_ip)] of
    [moveleader.py]: the copy and the command both go to [endpoint], and the
    command runs under [check=True]. *)
Definition check_and_transfer_leader (c : collaborators)
    (current_leader_ip optimal_leader_ip : string)
    : list effect * outcome unit :=
  let local_path := snapshot_path in
  let remote_path := snapshot_path in
  let endpoint := optimal_leader_ip ++ ":2379" in
  match scp_to_host c local_path endpoint remote_path with
  | (e1, Raised x) => (e1, Raised x)
  | (e1, Returned _) =>
      let cmd :=
        [ "./bin/etcdctl";
          "--endpoints=" ++ endpoint;
          "move-leader";
          dict_get_default Tables.IpToId endpoint "unknown" ] in
      match etcdctl_exit c with
      | Exit0 =>
          ((e1 ++ [RunEtcdctl cmd; RemoveFile local_path])%list, Returned tt)
      | p => ((e1 ++ [RunEtcdctl cmd])%list, Raised (raise_of p))
      end
  end.

End MoveLeaderMigration.

(** ** [predict_leader.py]: the load projector *)

(** [sorted(...)] on strings: ascending in the order of [str], which on the
    ASCII labels of the frame is the order of the bytes. *)
Module StringOrder <: TotalLeBool.

Definition t := string.

Definition leb := String.leb.

Definition leb_total
  : forall a1 a2, leb a1 a2 = true \/ leb a2 a1 = true
  := String.leb_total.

End StringOrder.

Module StringSort := Sort StringOrder.

Module Projector.

Import PredictLeader.

Local Open Scope string_scope.

(** [s.endswith(suffix)]. *)
Definition endswith (s suffix : string) : bool :=
  let n := String.length s in
  let m := String.length suffix in
  if (m <=? n)%nat then String.eqb (substring (n - m) m s) suffix else false.

(** [s[:-k]] for a string of at least [k] characters. *)
Definition drop_last (k : nat) (s : string) : string :=
  substring 0 (String.length s - k) s.

(** The first loop of [build_domains_from_pred_mean]: the node id named by
    each column, in column order. *)
Fixpoint column_ids (columns : list string) : list string :=
  match columns with
  | [] => []
  | col :: rest =>
      if endswith col "_write" then drop_last 6 col :: column_ids rest
      else if endswith col "_read" then drop_last 5 col :: column_ids rest
      else column_ids rest
  end.

(** The second loop, over the node ids in the order given; [mean_row] is
    the row of column means, a column label at most once. *)
Fixpoint domains_of (mean_row : list (string * Q)) (node_ids : list string)
    : list Domain :=
  match node_ids with
  | [] => []
  | node_id :: rest =>
      let write_col := node_id ++ "_write" in
      let read_col := node_id ++ "_read" in
      let write_val := dict_get_default mean_row write_col 0%Q in
      let read_val := dict_get_default mean_row read_col 0%Q in
      if Qeq_bool write_val 0 && Qeq_bool read_val 0
      then domains_of mean_row rest
      else
        let ip_addr := dict_get_default Tables.node_id_to_ip node_id "unknown" in
        if String.eqb ip_addr "unknown" then domains_of mean_row rest
        else mkDomain node_id ip_addr 1 read_val write_val
               :: domains_of mean_row rest
  end.

(** Does the second loop append a domain for this node id? *)
Definition yields_domain (mean_row : list (string * Q)) (node_id : string)
    : bool :=
  negb (Qeq_bool (dict_get_default mean_row (node_id ++ "_write") 0%Q) 0
        && Qeq_bool (dict_get_default mean_row (node_id ++ "_read") 0%Q) 0)
  && negb (String.eqb
             (dict_get_default Tables.node_id_to_ip node_id "unknown")
             "unknown").

(** [build_domains_from_pred_mean]: [None] stands for a frame that is
    [None] or empty, [Some mean_row] for the column means of any other
    frame.  The set of node ids is iterated in sorted order. *)
Definition build_domains_from_pred_mean (pred : option (list (string * Q)))
    : list Domain :=
  match pred with
  | None => []
  | Some mean_row =>
      let node_ids := nodup string_dec (column_ids (map fst mean_row)) in
      domains_of mean_row (StringSort.sort node_ids)
  end.

End Projector.

(** ** [predict_leader.py]: the [while True] loop of [main] *)

Module ControlLoop.

Import PredictLeader.

(** The state in which [main] enters the loop, the decision log on disk
    being [file0]. *)
Definition boot (file0 : option (list Logger.row)) : loop_state :=
  mkLoop (Logger.init "/etcd/etcd-release-3.4/predicted_leaderA.csv" file0) 0 0.

(** The loop over the passes that the inputs allow: it goes on after a pass
    that ends in [continue] and stops at the first pass that does not;
    [None] when the inputs run out first. *)
Fixpoint main_loop (h : host) (st : loop_state) (inputs : list tick_input)
    : loop_state * option tick_end :=
  match inputs with
  | [] => (st, None)
  | i :: rest =>
      match tick h st i with
      | (st', Continue) => main_loop h st' rest
      | (st', e) => (st', Some e)
      end
  end.

(** The effects of a whole run. *)
Definition run_effects (r : loop_state * option tick_end) : list effect :=
  match snd r with
  | Some e => effects_of e
  | None => []
  end.

(** Is this effect an [scp] call? *)
Definition is_copy_command (e : effect) : bool :=
  match e with RunScp _ => true | _ => false end.

(** The rows that passes hand to [logger.record] when each of them keeps
    the leader. *)
Definition keep_rows (h : host) (inputs : list tick_input) : list Logger.row :=
  map (fun i => [tick_clock i; detected_ip h]) inputs.

End ControlLoop.

(** ** [leader_logger.py]: any sequence of records *)

Module LoggerRuns.

Import Logger.





(** What is on disk, header included. *)
Definition content (st : state) : list row :=
  match file st with
  | None => []
  | Some rows => rows
  end.

(** What the CSV holds once the writer has made sure that it exists. *)
Definition ensured (file0 : option (list row)) : list row :=
  match file0 with
  | None => [header]
  | Some rows => rows
  end.


End LoggerRuns.

(** ** Where the float arithmetic of the scripts is exact *)

Module FloatRange.

(** A node total on which [math.floor(total_nodes / 2)] is the floored
    integer quotient: up to [2^53] in absolute value the quotient by 2 is a
    float, so the division does not round; beyond the float range it raises
    [OverflowError]. *)
Definition exact_total (total : Z) : Prop := Z.abs total <= 2 ^ 53.

(** A rate that is a whole number of at most [2^40] in absolute value. The
    sum of two such rates and its product with a latency, which is at most
    999, stay below [2^53] in absolute value, so the float sum, the float
    product and [int(...)] are exact on them. *)
Definition exact_rate (q : Q) : Prop :=
  Qden q = 1%positive /\ Z.abs (Qnum q) <= 2 ^ 40.

(** Domains of [predict_leader.py] on which [find_optimal_leader] computes
    without rounding and without raising. *)
Definition exact_domains (ds : list PredictLeader.Domain) : Prop :=
  exact_total (zsum (map PredictLeader.nodes ds))
  /\ Forall (fun x => exact_rate (PredictLeader.read_requests x)
                      /\ exact_rate (PredictLeader.write_requests x)) ds.

End FloatRange.

(** ** The cost formulas as the specification words them *)

Module CostSpec.

(** How many elements lie strictly below, and how many at or below, [w]:
    the [k]-th smallest element of a list is the [w] with fewer than [k]
    elements below it and at least [k] at or below it. *)
Definition count_below (w : Z) (l : list Z) : nat :=
  List.length (filter (fun x => x <? w) l).

Definition count_upto (w : Z) (l : list Z) : nat :=
  List.length (filter (fun x => x <=? w) l).

(** Over the integer request counts of [moveleader.py]. *)
Module OfMoveLeader.

Import MoveLeader.

(** The replicas other than [L]. *)
Definition others (L : Domain) (domains : list Domain) : list Domain :=
  filter (fun i => negb (String.eqb (id i) (id L))) domains.

(** [d(L,i)]: 0 when [i] is [L], else the latency from L to i. *)
Definition d (L i : Domain) : Z :=
  if String.eqb (id i) (id L) then 0
  else Tables.get_latency (address L) (address i).

(** [T(L)] for a commit latency [W]: the sum of [readRate_i * d(L,i)] plus
    [W] times the sum of [writeRate_i]. *)
Definition T (L : Domain) (domains : list Domain) (W : Z) : Z :=
  zsum (map (fun i => read_requests i * d L i) domains)
  + W * zsum (map write_requests domains).

(** What the candidate loop of [find_optimal_leader] compares for [L]:
    [math.inf] when the commit latency is, else the total latency at the
    commit latency. *)
Definition candidate_cost (all : list Domain) (q : Z) (L : Domain) : ext :=
  match calculate_commit_latency L all q with
  | Inf => Inf
  | Fin w => Fin (calculate_total_latency L all w)
  end.

(** The accumulator of the candidate loop is either untouched or holds a
    candidate together with its cost. *)
Definition acc_ok (all : list Domain) (q : Z) (acc : ext * option Domain)
    : Prop :=
  match acc with
  | (Inf, None) => True
  | (Fin c, Some b) => candidate_cost all q b = Fin c
  | _ => False
  end.

End OfMoveLeader.

(** Over the projected rates of [predict_leader.py]. *)
Module OfPredictLeader.

Import PredictLeader.

Definition others (L : Domain) (domains : list Domain) : list Domain :=
  filter (fun i => negb (String.eqb (id i) (id L))) domains.

Definition d (L i : Domain) : Z :=
  if String.eqb (id i) (id L) then 0
  else Tables.get_latency (address L) (address i).

(** The quorum size: half the total voting weight, rounded down, plus one. *)
Definition quorum (domains : list Domain) : Z :=
  zsum (map nodes domains) / 2 + 1.

(** [W(L)]: nothing when [L] is infeasible, 0 when no follower is needed,
    else the [followersNeeded]-th smallest latency to the other replicas. *)
Definition W (L : Domain) (domains : list Domain) : option Z :=
  let latencies :=
    ZSort.sort (map (fun i => Tables.get_latency (address L) (address i))
                    (others L domains)) in
  let followersNeeded := quorum domains - 1 in
  if followersNeeded >? Z.of_nat (List.length latencies) then None
  else if followersNeeded <=? 0 then Some 0
  else Some (nth (Z.to_nat (followersNeeded - 1)) latencies 0).

(** [T(L)] for a commit latency [w]. *)
Definition T (L : Domain) (domains : list Domain) (w : Z) : Q :=
  fold_right Qplus 0%Q
    (map (fun i => (read_requests i * inject_Z (d L i))%Q) domains)
  + inject_Z w * fold_right Qplus 0%Q (map write_requests domains).

(** The cost that [predict_leader.py] charges a replica [i] under leader
    [L]: reads and writes alike pay the point-to-point latency. *)
Definition charge (L i : Domain) : Z :=
  int_of ((read_requests i + write_requests i) * inject_Z (d L i)).

End OfPredictLeader.

End CostSpec.

(** * Properties *)

(** ** Lists of integers: sums, sorting, ranks *)

Module ListFacts.

Import CostSpec.

Lemma zsum_app (l1 l2 : list Z) : zsum (l1 ++ l2) = zsum l1 + zsum l2.
Proof.
  induction l1 as [|x l1 IH]; simpl; [reflexivity | rewrite IH; lia].
Qed.

Lemma zsum_perm (l l' : list Z) : Permutation l l' -> zsum l = zsum l'.
Proof.
  induction 1; simpl; lia.
Qed.

Lemma filter_length_perm {A : Type} (f : A -> bool) (l l' : list A) :
  Permutation l l' -> List.length (filter f l) = List.length (filter f l').
Proof.
  induction 1 as [|x l l' _ IH|x y l|l l' l'' _ IH1 _ IH2]; simpl.
  - reflexivity.
  - destruct (f x); simpl; congruence.
  - destruct (f x), (f y); reflexivity.
  - congruence.
Qed.

(** Two ascending lists with the same elements are the same list. *)
Lemma sorted_perm_eq (l1 : list Z) :
  forall l2, StronglySorted Z.le l1 -> StronglySorted Z.le l2 ->
             Permutation l1 l2 -> l1 = l2.
Proof.
  induction l1 as [|a t IH]; intros l2 S1 S2 P.
  - apply Permutation_nil in P. now subst.
  - destruct l2 as [|b t2].
    + apply Permutation_sym, Permutation_nil in P. discriminate.
    + apply StronglySorted_inv in S1 as [S1 F1].
      apply StronglySorted_inv in S2 as [S2 F2].
      assert (a = b) as ->.
      { assert (In b (a :: t)) as Hb
          by (eapply Permutation_in; [apply Permutation_sym, P | now left]).
        assert (In a (b :: t2)) as Ha
          by (eapply Permutation_in; [apply P | now left]).
        rewrite Forall_forall in F1, F2.
        destruct Hb as [->|Hb]; [reflexivity|].
        destruct Ha as [<-|Ha]; [reflexivity|].
        specialize (F1 _ Hb). specialize (F2 _ Ha). lia. }
      f_equal. apply IH; auto. eapply Permutation_cons_inv; eauto.
Qed.

Lemma zsort_sorted (l : list Z) : StronglySorted Z.le (ZSort.sort l).
Proof.
  assert (StronglySorted (fun x y => is_true (Z.leb x y)) (ZSort.sort l)) as H.
  { apply ZSort.StronglySorted_sort.
    intros x y z Hxy Hyz. unfold is_true in *.
    apply Z.leb_le in Hxy, Hyz. apply Z.leb_le. lia. }
  induction H as [|a t _ IH F]; constructor; auto.
  eapply Forall_impl; [|exact F]. intros x Hx. now apply Z.leb_le.
Qed.

Lemma zsort_perm (l : list Z) : Permutation l (ZSort.sort l).
Proof. apply ZSort.Permuted_sort. Qed.

Lemma zsort_length (l : list Z) : List.length (ZSort.sort l) = List.length l.
Proof. symmetry. apply Permutation_length, zsort_perm. Qed.

(** Sorting forgets the order of its input. *)
Lemma zsort_perm_eq (l l' : list Z) :
  Permutation l l' -> ZSort.sort l = ZSort.sort l'.
Proof.
  intro P. apply sorted_perm_eq; try apply zsort_sorted.
  eapply Permutation_trans; [apply Permutation_sym, zsort_perm|].
  eapply Permutation_trans; [exact P | apply zsort_perm].
Qed.

(** The entry at position [k] of an ascending list has at most [k] elements
    strictly below it and more than [k] elements at or below it. *)
Lemma sorted_nth_rank (s : list Z) :
  StronglySorted Z.le s ->
  forall k, (k < List.length s)%nat ->
    (count_below (nth k s 0%Z) s <= k)%nat /\
    (k < count_upto (nth k s 0%Z) s)%nat.
Proof.
  unfold count_below, count_upto.
  induction 1 as [|a t St IH F]; intros k Hk; simpl in Hk; [lia|].
  rewrite Forall_forall in F.
  destruct k as [|k]; simpl.
  - rewrite Z.ltb_irrefl, Z.leb_refl. simpl. split; [|lia].
    assert (filter (fun x => x <? a) t = []) as ->; [|simpl; lia].
    clear IH St Hk. induction t as [|b t IHt]; simpl; [reflexivity|].
    assert (a <= b) by (apply F; now left).
    destruct (Z.ltb_spec b a); [lia|]. apply IHt. intros x Hx. apply F. now right.
  - assert (k < List.length t)%nat as Hk' by lia.
    destruct (IH k Hk') as [IH1 IH2].
    assert (a <= nth k t 0) as Ha by (apply F, nth_In; exact Hk').
    destruct (Z.leb_spec a (nth k t 0)); [|lia].
    destruct (Z.ltb_spec a (nth k t 0)); simpl; lia.
Qed.

End ListFacts.

(** ** The cost model of [moveleader.py] *)

Module MoveLeaderFacts.

Import MoveLeader ListFacts CostSpec CostSpec.OfMoveLeader.

Lemma total_fold (L : Domain) (domains : list Domain) :
  forall a b,
    fold_left (total_step L) domains (a, b)
    = (a + zsum (map (fun i => read_requests i * d L i) domains),
       b + zsum (map write_requests domains)).
Proof.
  induction domains as [|i rest IH]; intros a b; simpl.
  - f_equal; lia.
  - rewrite IH. unfold d. f_equal; lia.
Qed.

(** The loop of [calculate_total_latency] computes the closed formula. *)
Lemma total_is_T (L : Domain) (domains : list Domain) (w : Z) :
  calculate_total_latency L domains w = T L domains w.
Proof.
  unfold calculate_total_latency, T. rewrite total_fold. lia.
Qed.

Lemma peer_latencies_others (L : Domain) (domains : list Domain) :
  peer_latencies L domains
  = map (fun i => Tables.get_latency (address L) (address i)) (others L domains).
Proof.
  unfold others.
  induction domains as [|i rest IH]; simpl; [reflexivity|].
  destruct (String.eqb (id i) (id L)); simpl; congruence.
Qed.

Lemma peer_latencies_length (L : Domain) (domains : list Domain) :
  List.length (peer_latencies L domains) = List.length (others L domains).
Proof. rewrite peer_latencies_others. apply length_map. Qed.

Lemma others_perm (L : Domain) (ds ds' : list Domain) :
  Permutation ds ds' -> Permutation (others L ds) (others L ds').
Proof.
  unfold others.
  induction 1 as [|x l l' _ IH|x y l|l l' l'' _ IH1 _ IH2]; simpl.
  - constructor.
  - destruct (negb _); [constructor|]; assumption.
  - destruct (negb (String.eqb (id x) (id L))), (negb (String.eqb (id y) (id L)));
      try apply Permutation_refl. apply perm_swap.
  - eapply Permutation_trans; eassumption.
Qed.

Lemma commit_perm (L : Domain) (ds ds' : list Domain) (q : Z) :
  Permutation ds ds' ->
  calculate_commit_latency L ds q = calculate_commit_latency L ds' q.
Proof.
  intro P. unfold calculate_commit_latency.
  rewrite (zsort_perm_eq (peer_latencies L ds) (peer_latencies L ds')).
  - reflexivity.
  - rewrite !peer_latencies_others. apply Permutation_map, others_perm, P.
Qed.

Lemma total_perm (L : Domain) (ds ds' : list Domain) (w : Z) :
  Permutation ds ds' ->
  calculate_total_latency L ds w = calculate_total_latency L ds' w.
Proof.
  intro P. rewrite !total_is_T. unfold T.
  rewrite (zsum_perm _ _ (Permutation_map (fun i => read_requests i * d L i) P)).
  rewrite (zsum_perm _ _ (Permutation_map write_requests P)).
  reflexivity.
Qed.

Lemma quorum_perm (ds ds' : list Domain) :
  Permutation ds ds' -> quorum_of ds = quorum_of ds'.
Proof.
  intro P. unfold quorum_of.
  rewrite (zsum_perm _ _ (Permutation_map nodes P)). reflexivity.
Qed.

(** Invert equations between finite costs. *)
Ltac fin_inj :=
  repeat match goal with
         | H : Fin _ = Fin _ |- _ => injection H as H; subst
         | H : ?a = Fin _, H' : ?a = Fin _ |- _ => rewrite H in H'
         | H : Inf = Fin _ |- _ => discriminate H
         | H : Fin _ = Inf |- _ => discriminate H
         end.

Lemma search_step_cost (all : list Domain) (q : Z) (acc : ext * option Domain)
    (L : Domain) :
  search_step all q acc L
  = match candidate_cost all q L with
    | Inf => acc
    | Fin c => if lt_ext c (fst acc) then (Fin c, Some L) else acc
    end.
Proof.
  unfold search_step, candidate_cost. destruct acc as [m o].
  destruct (calculate_commit_latency L all q); reflexivity.
Qed.

(** The invariant of the candidate loop over any stretch [cs] of candidates. *)
Lemma search_fold (all : list Domain) (q : Z) (cs : list Domain) :
  forall acc, acc_ok all q acc ->
    let r := fold_left (search_step all q) cs acc in
    acc_ok all q r
    /\ (snd r = snd acc \/ exists b, snd r = Some b /\ In b cs)
    /\ (forall c, fst r = Fin c ->
          (forall c0, fst acc = Fin c0 -> c <= c0)
          /\ (forall x c', In x cs -> candidate_cost all q x = Fin c' -> c <= c'))
    /\ (fst r = Inf ->
          fst acc = Inf /\ forall x, In x cs -> candidate_cost all q x = Inf).
Proof.
  induction cs as [|L rest IH]; intros acc Hok; simpl.
  - repeat split; intros; fin_inj; auto; try contradiction; try lia.
  - set (acc1 := search_step all q acc L).
    assert (acc_ok all q acc1
            /\ (snd acc1 = snd acc \/ snd acc1 = Some L)
            /\ (forall c1, fst acc1 = Fin c1 ->
                  (forall c0, fst acc = Fin c0 -> c1 <= c0)
                  /\ (forall c', candidate_cost all q L = Fin c' -> c1 <= c'))
            /\ (fst acc1 = Inf ->
                  fst acc = Inf /\ candidate_cost all q L = Inf)) as H1.
    { subst acc1. rewrite search_step_cost.
      destruct (candidate_cost all q L) as [c|] eqn:EL;
        destruct acc as [[m|] o]; simpl in *;
        try destruct (Z.ltb_spec c m); simpl;
        repeat split; intros; fin_inj; auto; try discriminate; try lia. }
    destruct H1 as (Hok1 & Hsnd1 & Hmin1 & Hinf1).
    destruct (IH acc1 Hok1) as (Hok2 & Hsnd2 & Hmin2 & Hinf2).
    cbv zeta in *. repeat split.
    + exact Hok2.
    + destruct Hsnd2 as [E|(b & E & Hb)].
      * rewrite E. destruct Hsnd1 as [E1|E1]; [now left|].
        right. exists L. split; [exact E1 | now left].
      * right. exists b. split; [exact E | now right].
    + intros c0 H0. destruct (Hmin2 c H) as [Ha _].
      destruct (fst acc1) as [c1|] eqn:E1.
      * specialize (Ha c1 eq_refl). destruct (Hmin1 c1 eq_refl) as [Hb _].
        specialize (Hb c0 H0). lia.
      * destruct (Hinf1 eq_refl) as [Hc _]. congruence.
    + intros x c' [<-|Hx] Hc.
      * destruct (Hmin2 c H) as [Ha _].
        destruct (fst acc1) as [c1|] eqn:E1.
        -- specialize (Ha c1 eq_refl). destruct (Hmin1 c1 eq_refl) as [_ Hb].
           specialize (Hb c' Hc). lia.
        -- destruct (Hinf1 eq_refl) as [_ Hd]. congruence.
      * destruct (Hmin2 c H) as [_ Ha]. eapply Ha; eauto.
    + destruct (Hinf2 H) as [Ha _]. apply Hinf1, Ha.
    + intros x [<-|Hx].
      * destruct (Hinf2 H) as [Ha _]. apply Hinf1, Ha.
      * destruct (Hinf2 H) as [_ Ha]. apply Ha, Hx.
Qed.

Lemma search_cases (domains : list Domain) :
  (search domains = (Inf, None)
   /\ forall x, In x domains ->
        candidate_cost domains (quorum_of domains) x = Inf)
  \/ (exists b c,
        search domains = (Fin c, Some b)
        /\ In b domains
        /\ candidate_cost domains (quorum_of domains) b = Fin c
        /\ forall x c', In x domains ->
             candidate_cost domains (quorum_of domains) x = Fin c' -> c <= c').
Proof.
  unfold search.
  destruct (search_fold domains (quorum_of domains) domains (Inf, None) I)
    as (Hok & Hsnd & Hmin & Hinf).
  cbv zeta in *.
  destruct (fold_left _ domains (Inf, None)) as [[c|] [b|]]; simpl in *;
    try contradiction.
  - right. exists b, c. destruct (Hmin c eq_refl) as [_ Hm].
    destruct Hsnd as [E|(b' & E & Hb)]; [discriminate|].
    injection E as <-. repeat split; auto.
  - left. split; [reflexivity|]. apply Hinf. reflexivity.
Qed.

Lemma commit_inf_iff (L : Domain) (domains : list Domain) (q : Z) :
  calculate_commit_latency L domains q = Inf
  <-> q - 1 > Z.of_nat (List.length (others L domains)).
Proof.
  unfold calculate_commit_latency.
  rewrite zsort_length, peer_latencies_length.
  destruct (Z.gtb_spec (q - 1) (Z.of_nat (List.length (others L domains)))).
  - split; [lia | reflexivity].
  - destruct (q - 1 <=? 0); split; try discriminate; lia.
Qed.

Lemma candidate_cost_inf_iff (L : Domain) (domains : list Domain) (q : Z) :
  candidate_cost domains q L = Inf
  <-> q - 1 > Z.of_nat (List.length (others L domains)).
Proof.
  rewrite <- commit_inf_iff. unfold candidate_cost.
  destruct (calculate_commit_latency L domains q); split;
    congruence || discriminate.
Qed.

(** The selected leader, if any, is a feasible candidate. *)
Lemma selected_is_feasible (domains : list Domain) (b : Domain) (v : pyval) :
  find_optimal_leader domains = PyTuple (PyDomain b) v ->
  In b domains
  /\ ~ quorum_of domains - 1 > Z.of_nat (List.length (others b domains)).
Proof.
  unfold find_optimal_leader. destruct domains as [|x rest]; [discriminate|].
  destruct (search_cases (x :: rest)) as [[E _]|(b' & c & E & Hin & Hc & _)];
    rewrite E; intro H; [discriminate|].
  injection H as <- _. split; [exact Hin|].
  rewrite <- candidate_cost_inf_iff. congruence.
Qed.

(** The total latency of a candidate is the read sum plus the commit
    latency times the write sum. *)
Lemma moveleader_cost_formula (L : Domain) (domains : list Domain) (w : Z) :
  calculate_total_latency L domains w
  = zsum (map (fun i => read_requests i * d L i) domains)
    + w * zsum (map write_requests domains).
Proof. apply total_is_T. Qed.

(** (C2) A candidate whose quorum cannot be formed has infinite commit
    latency and is never the selected leader; otherwise the commit latency
    is 0 when no follower is needed and else the entry of rank
    [quorum_size - 1] of the sorted latencies from the candidate to the
    other replicas: it is one of these latencies, fewer than
    [quorum_size - 1] of them lie strictly below it and at least
    [quorum_size - 1] of them lie at or below it.  The latencies are those
    that the latency table gives from the address of the candidate to the
    address of each replica with another id. *)
Theorem commit_latency_order_statistic :
  forall (domains : list Domain) (L : Domain) (q : Z),
    let followers_needed := q - 1 in
    let latencies :=
      map (fun i => Tables.get_latency (address L) (address i))
          (others L domains) in
    (followers_needed > Z.of_nat (List.length (others L domains)) ->
       calculate_commit_latency L domains q = Inf
       /\ (q = quorum_of domains ->
           forall v, find_optimal_leader domains <> PyTuple (PyDomain L) v))
    /\ (followers_needed <= Z.of_nat (List.length (others L domains)) ->
        followers_needed <= 0 ->
        calculate_commit_latency L domains q = Fin 0)
    /\ (0 < followers_needed <= Z.of_nat (List.length (others L domains)) ->
        exists w,
          calculate_commit_latency L domains q = Fin w
          /\ w = nth (Z.to_nat (followers_needed - 1)) (ZSort.sort latencies) 0
          /\ In w latencies
          /\ Z.of_nat (count_below w latencies) < followers_needed
          /\ followers_needed <= Z.of_nat (count_upto w latencies)).
Proof.
  intros domains L q followers_needed latencies. subst followers_needed.
  assert (peer_latencies L domains = latencies) as Hpl
    by apply peer_latencies_others.
  assert (List.length latencies = List.length (others L domains)) as Hlen
    by apply length_map.
  repeat split.
  - now apply commit_inf_iff.
  - intros -> v Hsel. apply selected_is_feasible in Hsel as [_ Hf]. lia.
  - intros Hle H0. unfold calculate_commit_latency.
    rewrite Hpl, zsort_length, Hlen.
    destruct (Z.gtb_spec (q - 1) (Z.of_nat (List.length (others L domains))));
      [lia|].
    destruct (Z.leb_spec (q - 1) 0); [reflexivity | lia].
  - intros [Hpos Hle].
    exists (nth (Z.to_nat (q - 1 - 1)) (ZSort.sort latencies) 0).
    assert (Z.to_nat (q - 1 - 1) < List.length (ZSort.sort latencies))%nat as Hk.
    { rewrite zsort_length, Hlen. lia. }
    split; [|split; [reflexivity|split]].
    + unfold calculate_commit_latency.
      rewrite Hpl, zsort_length, Hlen.
      destruct (Z.gtb_spec (q - 1) (Z.of_nat (List.length (others L domains))));
        [lia|].
      destruct (Z.leb_spec (q - 1) 0); [lia | reflexivity].
    + eapply Permutation_in; [apply Permutation_sym, zsort_perm|].
      apply nth_In, Hk.
    + destruct (sorted_nth_rank _ (zsort_sorted latencies) _ Hk) as [Hb Hu].
      unfold count_below, count_upto in *.
      rewrite (filter_length_perm _ _ _ (zsort_perm latencies)).
      rewrite (filter_length_perm (fun x => x <=? _) _ _ (zsort_perm latencies)).
      split; lia.
Qed.

Lemma Domain_eq_dec (x y : Domain) : {x = y} + {x <> y}.
Proof.
  decide equality; try apply Z.eq_dec; apply string_dec.
Qed.

Lemma candidate_cost_perm (L : Domain) (ds ds' : list Domain) (q : Z) :
  Permutation ds ds' -> candidate_cost ds q L = candidate_cost ds' q L.
Proof.
  intro P. unfold candidate_cost. rewrite (commit_perm L ds ds' q P).
  destruct (calculate_commit_latency L ds' q); [|reflexivity].
  now rewrite (total_perm L ds ds' z P).
Qed.

(** What [find_optimal_leader] returns, case by case. *)
Lemma find_optimal_leader_shapes (domains : list Domain) :
  (domains = [] /\ find_optimal_leader domains = PyNone)
  \/ (domains <> []
      /\ (forall x, In x domains ->
            quorum_of domains - 1 > Z.of_nat (List.length (others x domains)))
      /\ find_optimal_leader domains = PyTuple PyNone (PyTuple PyNone PyNone))
  \/ (exists b c,
        find_optimal_leader domains = PyTuple (PyDomain b) (PyNum (Fin c))
        /\ In b domains
        /\ candidate_cost domains (quorum_of domains) b = Fin c
        /\ forall x c', In x domains ->
             candidate_cost domains (quorum_of domains) x = Fin c' -> c <= c').
Proof.
  destruct domains as [|x rest]; [left; split; reflexivity|right].
  unfold find_optimal_leader.
  destruct (search_cases (x :: rest)) as [[E Hall]|(b & c & E & Hin & Hc & Hm)];
    rewrite E.
  - left. split; [discriminate|]. split; [|reflexivity].
    intros y Hy. apply candidate_cost_inf_iff, Hall, Hy.
  - right. exists b, c. repeat split; auto.
Qed.

(** (C3) The fixture: quorum 2, [W(A) = 30], [T(A) = 310], [T(B) = 560],
    [T(C) = 780], and A is selected with cost 310. *)
Theorem fixture_costs :
  quorum_of fixture = 2
  /\ calculate_commit_latency dA fixture 2 = Fin 30
  /\ calculate_total_latency dA fixture 30 = 310
  /\ calculate_commit_latency dB fixture 2 = Fin 30
  /\ calculate_total_latency dB fixture 30 = 560
  /\ calculate_commit_latency dC fixture 2 = Fin 40
  /\ calculate_total_latency dC fixture 40 = 780
  /\ find_optimal_leader fixture = PyTuple (PyDomain dA) (PyNum (Fin 310)).
Proof. repeat split; vm_compute; reflexivity. Qed.

(** (C3) The total latency of A on the fixture is not 320. *)
Lemma fixture_cost_A_is_not_320 :
  calculate_commit_latency dA fixture (quorum_of fixture) = Fin 30
  /\ calculate_total_latency dA fixture 30 <> 320.
Proof. split; vm_compute; [reflexivity | discriminate]. Qed.

(** (C4) With no feasible candidate [find_optimal_leader] does not return
    the pair [(None, None)]: a site that carries three votes alone needs one
    follower and has none, and the result is [(None, (None, None))]; the
    empty list yields a bare [None]. *)
Theorem no_candidate_results :
  quorum_of [heavy] - 1 > Z.of_nat (List.length (others heavy [heavy]))
  /\ find_optimal_leader [heavy] = PyTuple PyNone (PyTuple PyNone PyNone)
  /\ find_optimal_leader [heavy] <> PyTuple PyNone PyNone
  /\ find_optimal_leader [] = PyNone
  /\ find_optimal_leader [] <> PyTuple PyNone PyNone.
Proof. repeat split; vm_compute; congruence. Qed.

(** (C9) Reordering the replicas changes neither the quorum size, nor any
    candidate's commit latency or total latency; when one candidate is
    strictly cheaper than every other feasible one, it is selected in every
    order; with equal costs the first candidate in the order wins. *)
Theorem cost_model_permutation_invariant :
  (forall ds ds' : list Domain, Permutation ds ds' ->
     quorum_of ds = quorum_of ds'
     /\ (forall L q,
           calculate_commit_latency L ds q = calculate_commit_latency L ds' q)
     /\ (forall L w,
           calculate_total_latency L ds w = calculate_total_latency L ds' w)
     /\ (forall b c,
           find_optimal_leader ds = PyTuple (PyDomain b) (PyNum (Fin c)) ->
           (forall x c', In x ds -> x <> b ->
              candidate_cost ds (quorum_of ds) x = Fin c' -> c < c') ->
           find_optimal_leader ds' = PyTuple (PyDomain b) (PyNum (Fin c))))
  /\ (Permutation [idleB; idleC] [idleC; idleB]
      /\ find_optimal_leader [idleB; idleC] = PyTuple (PyDomain idleB) (PyNum (Fin 0))
      /\ find_optimal_leader [idleC; idleB] = PyTuple (PyDomain idleC) (PyNum (Fin 0))).
Proof.
  split.
  - intros ds ds' P. split; [apply quorum_perm, P|].
    split; [intros; apply commit_perm, P|].
    split; [intros; apply total_perm, P|].
    intros b c Hsel Huniq.
    destruct (find_optimal_leader_shapes ds)
      as [[_ E]|[(_ & _ & E)|(b0 & c0 & E & Hin & Hc & _)]];
      rewrite E in Hsel; try discriminate.
    injection Hsel as -> ->.
    assert (candidate_cost ds' (quorum_of ds') b = Fin c) as Hc'.
    { rewrite <- (quorum_perm ds ds' P), <- (candidate_cost_perm b ds ds' _ P).
      exact Hc. }
    destruct (find_optimal_leader_shapes ds')
      as [[E' _]|[(_ & Hall & _)|(b' & c' & E' & Hin' & Hcb' & Hmin')]].
    + subst ds'. apply Permutation_sym, Permutation_nil in P. subst ds.
      contradiction.
    + assert (In b ds') as Hb by (eapply Permutation_in; eauto).
      apply Hall, candidate_cost_inf_iff in Hb. congruence.
    + rewrite E'.
      assert (In b ds') as Hb by (eapply Permutation_in; eauto).
      specialize (Hmin' b c Hb Hc').
      destruct (Domain_eq_dec b' b) as [->|Hne].
      * rewrite Hc' in Hcb'. injection Hcb' as ->. reflexivity.
      * assert (In b' ds) as Hb'
          by (eapply Permutation_in; [apply Permutation_sym, P | exact Hin']).
        rewrite <- (quorum_perm ds ds' P),
                <- (candidate_cost_perm b' ds ds' _ P) in Hcb'.
        specialize (Huniq b' c' Hb' Hne Hcb'). lia.
  - split; [apply perm_swap|]. split; vm_compute; reflexivity.
Qed.

Lemma commit_latency_order_statistic_witness :
  (calculate_commit_latency heavy [heavy] (quorum_of [heavy]) = Inf
   /\ forall v, find_optimal_leader [heavy] <> PyTuple (PyDomain heavy) v)
  /\ calculate_commit_latency dA [dA] (quorum_of [dA]) = Fin 0
  /\ exists w,
       calculate_commit_latency dA fixture (quorum_of fixture) = Fin w
       /\ w = nth (Z.to_nat (quorum_of fixture - 1 - 1))
                  (ZSort.sort
                     (map (fun i => Tables.get_latency (address dA) (address i))
                          (others dA fixture))) 0
       /\ In w (map (fun i => Tables.get_latency (address dA) (address i))
                    (others dA fixture))
       /\ Z.of_nat
            (count_below w
               (map (fun i => Tables.get_latency (address dA) (address i))
                    (others dA fixture)))
          < quorum_of fixture - 1
       /\ quorum_of fixture - 1
          <= Z.of_nat
               (count_upto w
                  (map (fun i => Tables.get_latency (address dA) (address i))
                       (others dA fixture))).
Proof.
  split; [|split].
  - destruct (commit_latency_order_statistic [heavy] heavy (quorum_of [heavy]))
      as (H & _ & _).
    destruct H as [Hinf Hsel]; [vm_compute; reflexivity|].
    split; [exact Hinf | exact (Hsel eq_refl)].
  - destruct (commit_latency_order_statistic [dA] dA (quorum_of [dA]))
      as (_ & H & _).
    apply H; vm_compute; intro E; discriminate E.
  - destruct (commit_latency_order_statistic fixture dA (quorum_of fixture))
      as (_ & _ & H).
    apply H. split; vm_compute; [reflexivity | intro E; discriminate E].
Defined.

Lemma cost_model_permutation_invariant_witness :
  Permutation fixture [dA; dC; dB]
  /\ find_optimal_leader fixture = PyTuple (PyDomain dA) (PyNum (Fin 310))
  /\ find_optimal_leader [dA; dC; dB] = PyTuple (PyDomain dA) (PyNum (Fin 310)).
Proof.
  assert (Permutation fixture [dA; dC; dB]) as P
    by (apply perm_skip, perm_swap).
  assert (find_optimal_leader fixture = PyTuple (PyDomain dA) (PyNum (Fin 310)))
    as Hsel by (vm_compute; reflexivity).
  split; [exact P|]. split; [exact Hsel|].
  destruct (proj1 cost_model_permutation_invariant fixture [dA; dC; dB] P)
    as (_ & _ & _ & H).
  apply H; [exact Hsel|].
  intros x c' Hin Hne Hc.
  destruct Hin as [<-|[<-|[<-|[]]]].
  - now contradiction Hne.
  - vm_compute in Hc. injection Hc as <-. reflexivity.
  - vm_compute in Hc. injection Hc as <-. reflexivity.
Defined.

End MoveLeaderFacts.

(** ** The cost model and the control loop of [predict_leader.py] *)

Module PredictLeaderFacts.

Import PredictLeader CostSpec CostSpec.OfPredictLeader.

Local Open Scope string_scope.

Lemma predict_total_fold (L : Domain) (domains : list Domain) :
  forall a,
    fold_left (total_step L) domains a
    = (a + zsum (map (charge L) domains))%Z.
Proof.
  induction domains as [|i rest IH]; intro a; simpl.
  - lia.
  - rewrite IH. unfold total_step, charge, d. lia.
Qed.

(** The loop of [calculate_total_latency] charges every replica its whole
    request rate times its latency to the leader, truncated. *)
Lemma predict_cost_formula (L : Domain) (domains : list Domain) :
  calculate_total_latency L domains = zsum (map (charge L) domains).
Proof.
  unfold calculate_total_latency. rewrite predict_total_fold. lia.
Qed.

(** The first candidate always enters the accumulator, so the loop over a
    non-empty list ends with a candidate. *)
Lemma search_fold_some (all cs : list Domain) :
  forall b c, exists b' c',
    fold_left (search_step all) cs (Some b, Fin c) = (Some b', Fin c').
Proof.
  induction cs as [|x rest IH]; intros b c; simpl.
  - now exists b, c.
  - destruct (calculate_total_latency x all <? c)%Z; apply IH.
Qed.

Lemma find_optimal_leader_none (domains : list Domain) :
  find_optimal_leader domains = (None, None) <-> domains = [].
Proof.
  split; [|intros ->; reflexivity].
  destruct domains as [|x rest]; [reflexivity|].
  unfold find_optimal_leader. simpl.
  destruct (search_fold_some (x :: rest) rest x
              (calculate_total_latency x (x :: rest))) as (b & c & E).
  rewrite E. discriminate.
Qed.

(** [run_once_and_decide] on the domains of a projection that names a
    leader. *)
Lemma run_once_selected (domains : list Domain) (b : Domain) (self_ip : string) :
  fst (find_optimal_leader domains) = Some b ->
  run_once_and_decide (Projected domains) self_ip
  = Some (String.eqb (address b) self_ip, Some (address b)).
Proof.
  intro H. destruct domains as [|x rest]; [discriminate|].
  unfold run_once_and_decide. rewrite H. reflexivity.
Qed.

Lemma falsy_nonempty (s : string) : s <> "" -> falsy (Some s) = false.
Proof. destruct s; [congruence | reflexivity]. Qed.

(** Every [etcdctl] call of the migration step carries that command. *)
Lemma transfer_command_shape (c : collaborators) (cur opt : string)
    (argv : list string) :
  In (RunEtcdctl argv) (fst (check_and_transfer_leader c cur opt)) ->
  argv = transfer_argv cur opt.
Proof.
  unfold check_and_transfer_leader, scp_to_host, move_leader_with_timing,
    transfer_argv.
  destruct (snapshot_exists c), (scp_exit c), (etcdctl_exit c); simpl;
    intro H;
    repeat match goal with
           | H : _ \/ _ |- _ => destruct H
           | H : False |- _ => contradiction
           | H : RunEtcdctl _ = RunEtcdctl _ |- _ =>
               injection H as <-; reflexivity
           | H : _ = RunEtcdctl _ |- _ => discriminate H
           end.
Qed.

(** Once the copy has succeeded the command is issued. *)
Lemma transfer_command_issued (c : collaborators) (cur opt : string) :
  snapshot_exists c = true -> scp_exit c = Exit0 ->
  In (RunEtcdctl (transfer_argv cur opt))
     (fst (check_and_transfer_leader c cur opt)).
Proof.
  intros He Hs.
  unfold check_and_transfer_leader, scp_to_host, move_leader_with_timing,
    transfer_argv.
  rewrite He, Hs. destruct (etcdctl_exit c); simpl; auto.
Qed.

(** A failed copy stops the migration step before anything else happens. *)
Lemma failed_copy_keeps_snapshot (c : collaborators) (cur opt : string) :
  snapshot_exists c = false \/ scp_exit c <> Exit0 ->
  (exists e, snd (check_and_transfer_leader c cur opt) = Raised e)
  /\ snapshot_left c (fst (check_and_transfer_leader c cur opt))
     = snapshot_exists c
  /\ existsb is_transfer_command (fst (check_and_transfer_leader c cur opt))
     = false.
Proof.
  unfold check_and_transfer_leader, scp_to_host, snapshot_left.
  intros [H|H].
  - rewrite H. simpl. eauto.
  - destruct (snapshot_exists c); simpl; [|eauto].
    destruct (scp_exit c); try contradiction; simpl; eauto.
Qed.

(** A transfer command that exits with a non-zero status does not stop the
    migration step. *)
Lemma failed_transfer_removes_snapshot (c : collaborators) (cur opt : string) :
  snapshot_exists c = true -> scp_exit c = Exit0 ->
  etcdctl_exit c = ExitNonZero ->
  snd (check_and_transfer_leader c cur opt) = Returned 1%Z
  /\ In (TimingRow "failed") (fst (check_and_transfer_leader c cur opt))
  /\ snapshot_left c (fst (check_and_transfer_leader c cur opt)) = false.
Proof.
  intros He Hs Ht.
  unfold check_and_transfer_leader, scp_to_host, move_leader_with_timing,
    snapshot_left.
  rewrite He, Hs, Ht. simpl. repeat split; auto 10.
Qed.

Lemma etcdctl_in_tick (h : host) (st : loop_state) (i : tick_input)
    (argv : list string) :
  In (RunEtcdctl argv) (effects_of (snd (tick h st i))) ->
  exists opt, argv = transfer_argv (get_current_leader_ip h) opt.
Proof.
  unfold tick.
  destruct (run_once_and_decide (tick_forecast i) (get_current_leader_ip h))
    as [[is_self optimal_ip]|];
    destruct (decide (get_current_leader_ip h) _ _) as [will_move leader_for_log];
    destruct will_move; simpl; try contradiction;
    match goal with
    | |- context [check_and_transfer_leader ?c ?cur ?opt] =>
        pose proof (transfer_command_shape c cur opt argv) as Hshape;
        destruct (check_and_transfer_leader c cur opt) as [effects [r|e]];
        simpl in *; intro Hin; exists opt; apply Hshape
    end; auto;
    apply in_app_or in Hin; destruct Hin as [Hin|[Hin|[]]];
    [assumption | discriminate Hin | assumption | discriminate Hin].
Qed.

(** A pass whose projection names a non-empty address other than the local
    one reaches the migration call with that address. *)
Lemma tick_migrates (h : host) (st : loop_state) (i : tick_input)
    (domains : list Domain) (b : Domain) :
  tick_forecast i = Projected domains ->
  fst (find_optimal_leader domains) = Some b ->
  address b <> "" ->
  address b <> detected_ip h ->
  entered_migration (snd (tick h st i)) = true
  /\ effects_of (snd (tick h st i))
     = (let r := check_and_transfer_leader (tick_collab i) (detected_ip h)
                   (address b) in
        match snd r with
        | Returned _ => fst r ++ [MetricsRow (rounds st + 1)]
        | Raised _ => fst r
        end)%list.
Proof.
  intros Hf Hsel Hne Hself. unfold tick, get_current_leader_ip.
  rewrite Hf, (run_once_selected domains b (detected_ip h) Hsel).
  unfold decide. rewrite (falsy_nonempty _ Hne).
  apply String.eqb_neq in Hself. rewrite Hself. simpl.
  destruct (check_and_transfer_leader (tick_collab i) (detected_ip h) (address b))
    as [effects [r|e]]; simpl; auto.
Qed.

(** (C6) When the copy succeeds and [etcdctl] exits with a non-zero status,
    [check_and_transfer_leader] writes the timing row [failed], removes the
    local snapshot and returns 1. *)
Theorem failed_transfer_still_deletes_snapshot :
  check_and_transfer_leader transfer_refused "192.168.0.38" "192.168.0.82"
  = ([ RunScp [ "scp"; "/etcd/etcd-release-3.4/raft_stats.csv";
                "root@192.168.0.82:/etcd/etcd-release-3.4/raft_stats.csv" ];
       RunEtcdctl [ "/etcd/etcd-release-3.4/bin/etcdctl";
                    "--endpoints=192.168.0.38:2379";
                    "move-leader"; "b92b49a4de72942d" ];
       TimingRow "failed";
       RemoveFile "/etcd/etcd-release-3.4/raft_stats.csv" ],
     Returned 1%Z)
  /\ snapshot_exists transfer_refused = true
  /\ snapshot_left transfer_refused
       (fst (check_and_transfer_leader transfer_refused
               "192.168.0.38" "192.168.0.82"))
     = false.
Proof. repeat split. Qed.

Lemma string_length_append (a b : string) :
  String.length (a ++ b) = (String.length a + String.length b)%nat.
Proof.
  induction a as [|c a IH]; simpl; [reflexivity | now rewrite IH].
Qed.

Lemma append_suffix_inj (s a : string) :
  forall b, a ++ s = b ++ s -> a = b.
Proof.
  induction a as [|c a IH]; intros [|d b] H; simpl in H.
  - reflexivity.
  - apply (f_equal String.length) in H. simpl in H.
    rewrite string_length_append in H. lia.
  - apply (f_equal String.length) in H. simpl in H.
    rewrite string_length_append in H. lia.
  - injection H as -> H. f_equal. now apply IH.
Qed.

Lemma append_prefix_inj (p a b : string) : p ++ a = p ++ b -> a = b.
Proof.
  induction p as [|c p IH]; simpl; intro H; [exact H|].
  injection H as H. now apply IH.
Qed.

(** (C10) Every transfer command of a pass names the address that the
    process detected for its own machine, suffixed with [:2379], as the
    endpoint.  The replica that leads the cluster plays no part: when it is
    not the machine of the process, the command is not addressed to the
    endpoint of the leader, and a pass is the same whichever replica
    leads. *)
Theorem transfer_command_targets_local_address :
  (forall h st i argv,
     In (RunEtcdctl argv) (effects_of (snd (tick h st i))) ->
     nth 1 argv "" = "--endpoints=" ++ detected_ip h ++ ":2379")
  /\ (forall h st i argv,
        In (RunEtcdctl argv) (effects_of (snd (tick h st i))) ->
        cluster_leader_ip h <> detected_ip h ->
        nth 1 argv "" <> "--endpoints=" ++ cluster_leader_ip h ++ ":2379")
  /\ (forall h leader st i,
        tick (mkHost (detected_ip h) leader) st i = tick h st i).
Proof.
  assert (forall h st i argv,
            In (RunEtcdctl argv) (effects_of (snd (tick h st i))) ->
            nth 1 argv "" = "--endpoints=" ++ detected_ip h ++ ":2379") as H1.
  { intros h st i argv Hin.
    destruct (etcdctl_in_tick h st i argv Hin) as [opt ->]. reflexivity. }
  split; [exact H1|]. split.
  - intros h st i argv Hin Hne E. rewrite (H1 h st i argv Hin) in E.
    apply append_prefix_inj, append_suffix_inj in E. now apply Hne.
  - intros [ip l] leader st i. reflexivity.
Qed.

Lemma transfer_command_targets_local_address_witness :
  In (RunEtcdctl (transfer_argv "192.168.0.223" "192.168.0.38"))
     (effects_of
        (snd (tick host223 fresh_loop
                (mkTick (Projected fixture) "2026-01-01 00:00:00" all_well))))
  /\ cluster_leader_ip host223 <> detected_ip host223
  /\ nth 1 (transfer_argv "192.168.0.223" "192.168.0.38") ""
     = "--endpoints=192.168.0.223:2379"
  /\ nth 1 (transfer_argv "192.168.0.223" "192.168.0.38") ""
     <> "--endpoints=" ++ cluster_leader_ip host223 ++ ":2379".
Proof.
  assert (In (RunEtcdctl (transfer_argv "192.168.0.223" "192.168.0.38"))
             (effects_of
                (snd (tick host223 fresh_loop
                        (mkTick (Projected fixture) "2026-01-01 00:00:00"
                                all_well))))) as Hin.
  { vm_compute. auto. }
  assert (cluster_leader_ip host223 <> detected_ip host223) as Hne
    by (intro E; discriminate E).
  split; [exact Hin|]. split; [exact Hne|]. split.
  - exact (proj1 transfer_command_targets_local_address _ _ _ _ Hin).
  - exact (proj1 (proj2 transfer_command_targets_local_address) _ _ _ _ Hin Hne).
Defined.

End PredictLeaderFacts.

(** ** The decision log *)

Module LoggerFacts.

Import Logger.





End LoggerFacts.

(** ** The artifact watcher *)

Module ReloaderFacts.

Import Reloader.

Section Debounce.

Variable signature : Type.
Variable sig_eqb : signature -> signature -> bool.
Hypothesis sig_eqb_spec : forall a b, sig_eqb a b = true <-> a = b.

Let poll : Type := Reloader.poll signature.

Lemma sig_eqb_refl (a : signature) : sig_eqb a a = true.
Proof. now apply sig_eqb_spec. Qed.

Lemma sig_eqb_neq (a b : signature) : a <> b -> sig_eqb a b = false.
Proof.
  intro H. destruct (sig_eqb a b) eqn:E; [|reflexivity].
  apply sig_eqb_spec in E. contradiction.
Qed.

Lemma run_app (w : worker signature) (l1 l2 : list poll) :
  run sig_eqb w (l1 ++ l2) = run sig_eqb (run sig_eqb w l1) l2.
Proof. apply fold_left_app. Qed.

Lemma run_cons (w : worker signature) (p : poll) (l : list poll) :
  run sig_eqb w (p :: l) = run sig_eqb (run_step sig_eqb w p) l.
Proof. reflexivity. Qed.

(** One poll that reads the loaded signature clears a pending change. *)
Lemma run_step_same (deb ts : Q) (loaded : signature) (p : poll) (t s : nat) :
  poll_sig p = loaded ->
  run_step sig_eqb (mkWorker (mkGuard deb loaded ts) t s) p
  = mkWorker (mkGuard deb loaded 0) t s.
Proof.
  intro Hp. unfold run_step, changed_and_stable. simpl.
  rewrite Hp, sig_eqb_refl. reflexivity.
Qed.

(** One poll that reads another signature while a change is pending fires
    exactly when [deb] or more has passed since the change was first seen. *)
Lemma run_step_pending (deb ts : Q) (loaded : signature) (p : poll)
    (t s : nat) :
  poll_sig p <> loaded ->
  ~ (ts == 0)%Q ->
  run_step sig_eqb (mkWorker (mkGuard deb loaded ts) t s) p
  = if Qle_bool deb (poll_now p - ts)
    then if ctor_ok p
         then mkWorker (mkGuard deb (poll_sig_at_mark p) 0) (S t) (S s)
         else mkWorker (mkGuard deb loaded ts) (S t) s
    else mkWorker (mkGuard deb loaded ts) t s.
Proof.
  intros Hp Hts. unfold run_step, changed_and_stable. simpl.
  rewrite (sig_eqb_neq _ _ Hp).
  destruct (Qeq_bool ts 0) eqn:E0; [apply Qeq_bool_eq in E0; contradiction|].
  destruct (Qle_bool deb (poll_now p - ts)); reflexivity.
Qed.

(** The first poll that reads a signature other than the loaded one only
    notes the time. *)
Lemma run_first_sighting (deb : Q) (loaded : signature) (p : poll)
    (t s : nat) :
  poll_sig p <> loaded ->
  run_step sig_eqb (mkWorker (mkGuard deb loaded 0) t s) p
  = mkWorker (mkGuard deb loaded (poll_now p)) t s.
Proof.
  intro Hp. unfold run_step, changed_and_stable. simpl.
  rewrite (sig_eqb_neq _ _ Hp). reflexivity.
Qed.

(** While every poll reads the loaded signature nothing happens, and no
    change is pending. *)
Lemma run_unchanged (deb : Q) (loaded : signature) (polls : list poll) :
  Forall (fun p => poll_sig p = loaded) polls ->
  forall t s,
    run sig_eqb (mkWorker (mkGuard deb loaded 0) t s) polls
    = mkWorker (mkGuard deb loaded 0) t s.
Proof.
  induction 1 as [|p rest Hp _ IH]; intros t s; [reflexivity|].
  rewrite run_cons, (run_step_same _ _ _ _ _ _ Hp). apply IH.
Qed.

(** The same from a pending change: the first poll clears it. *)
Lemma run_reverted (deb ts : Q) (loaded : signature) (polls : list poll) :
  Forall (fun p => poll_sig p = loaded) polls ->
  forall t s,
    let w := run sig_eqb (mkWorker (mkGuard deb loaded ts) t s) polls in
    triggered w = t /\ swapped w = s /\ last_sig (wguard w) = loaded
    /\ (polls <> [] -> last_seen_change_ts (wguard w) = 0%Q).
Proof.
  intros H t s w. subst w. destruct H as [|p rest Hp Hrest].
  - simpl. repeat split; auto. intro Hn. now contradiction Hn.
  - assert (run sig_eqb (mkWorker (mkGuard deb loaded ts) t s) (p :: rest)
            = mkWorker (mkGuard deb loaded 0) t s) as ->.
    { rewrite run_cons, (run_step_same _ _ _ _ _ _ Hp).
      apply (run_unchanged deb loaded rest Hrest). }
    simpl. repeat split; auto.
Qed.

(** A pending change that is still read fires at the first poll that comes
    [deb] or more after the change was first seen, and only there. *)
Lemma run_pending_fires (deb ts : Q) (loaded new : signature)
    (polls : list poll) :
  new <> loaded ->
  ~ (ts == 0)%Q ->
  Forall (fun p => poll_sig p = new /\ poll_sig_at_mark p = new
                   /\ ctor_ok p = true) polls ->
  Exists (fun p => (deb <= poll_now p - ts)%Q) polls ->
  forall t s,
    run sig_eqb (mkWorker (mkGuard deb loaded ts) t s) polls
    = mkWorker (mkGuard deb new 0) (S t) (S s).
Proof.
  intros Hne Hts Hall. induction Hall as [|p rest (Hp & Hm & Hc) Hrest IH];
    intros Hex t s; [inversion Hex|].
  rewrite run_cons.
  rewrite run_step_pending by (rewrite ?Hp; assumption).
  destruct (Qle_bool deb (poll_now p - ts)) eqn:El.
  - rewrite Hc, Hm. apply run_unchanged.
    eapply Forall_impl; [|exact Hrest]. intros a Ha. apply Ha.
  - apply IH. inversion Hex as [? ? Hd|? ? Hd]; subst; [|exact Hd].
    apply Qle_bool_iff in Hd. congruence.
Qed.

(** A pending change that is read only within [deb] of its first sighting
    fires nowhere. *)
Lemma run_pending_waits (deb ts : Q) (loaded : signature) (polls : list poll) :
  ~ (ts == 0)%Q ->
  Forall (fun p => poll_sig p <> loaded /\ (poll_now p - ts < deb)%Q) polls ->
  forall t s,
    run sig_eqb (mkWorker (mkGuard deb loaded ts) t s) polls
    = mkWorker (mkGuard deb loaded ts) t s.
Proof.
  intros Hts. induction 1 as [|p rest (Hp & Hd) _ IH]; intros t s;
    [reflexivity|].
  rewrite run_cons, run_step_pending by assumption.
  destruct (Qle_bool deb (poll_now p - ts)) eqn:El.
  - apply Qle_bool_iff in El. apply Qlt_not_le in Hd. contradiction.
  - apply IH.
Qed.

(** (C7) Polls that read the loaded signature, then a new signature from a
    first sighting on, with a later poll [debounce] or more after that
    sighting, and a constructor that succeeds: exactly one reload, after
    which the new signature is the loaded one and no change is pending.
    Polls that read another signature only within [debounce] of its first
    sighting and then the loaded signature again: no reload. *)
Theorem debounced_reload :
  forall (deb : Q) (loaded : signature),
    (forall (new : signature) (pre : list poll) (p1 : poll) (post : list poll),
       new <> loaded ->
       Forall (fun p => poll_sig p = loaded) pre ->
       Forall (fun p => poll_sig p = new /\ poll_sig_at_mark p = new
                        /\ ctor_ok p = true) (p1 :: post) ->
       ~ (poll_now p1 == 0)%Q ->
       Exists (fun p => (deb <= poll_now p - poll_now p1)%Q) post ->
       let w := run sig_eqb (worker_init deb loaded) (pre ++ p1 :: post) in
       triggered w = 1%nat /\ swapped w = 1%nat
       /\ last_sig (wguard w) = new
       /\ last_seen_change_ts (wguard w) = 0%Q)
    /\ (forall (pre : list poll) (p1 : poll) (mid post : list poll),
          Forall (fun p => poll_sig p = loaded) pre ->
          poll_sig p1 <> loaded ->
          ~ (poll_now p1 == 0)%Q ->
          Forall (fun p => poll_sig p <> loaded
                           /\ (poll_now p - poll_now p1 < deb)%Q) mid ->
          Forall (fun p => poll_sig p = loaded) post ->
          let w := run sig_eqb (worker_init deb loaded)
                       (pre ++ p1 :: mid ++ post) in
          triggered w = 0%nat /\ swapped w = 0%nat
          /\ last_sig (wguard w) = loaded
          /\ (post <> [] -> last_seen_change_ts (wguard w) = 0%Q)).
Proof.
  intros deb loaded.
  assert (worker_init deb loaded = mkWorker (mkGuard deb loaded 0) 0 0) as Hinit
    by reflexivity.
  split.
  - intros new pre p1 post Hne Hpre Hall Ht Hex w. subst w.
    inversion Hall as [|? ? (Hp1 & _) Hpost]; subst.
    assert (run sig_eqb (worker_init deb loaded) (pre ++ p1 :: post)
            = mkWorker (mkGuard deb (poll_sig p1) 0) 1 1) as ->.
    { rewrite Hinit, run_app, (run_unchanged deb loaded pre Hpre), run_cons.
      rewrite run_first_sighting by exact Hne.
      apply (run_pending_fires deb (poll_now p1) loaded (poll_sig p1) post);
        auto. }
    simpl. repeat split; auto.
  - intros pre p1 mid post Hpre Hp1 Ht Hmid Hpost w. subst w.
    assert (run sig_eqb (worker_init deb loaded) (pre ++ p1 :: mid ++ post)
            = run sig_eqb (mkWorker (mkGuard deb loaded (poll_now p1)) 0 0) post)
      as ->.
    { rewrite Hinit, run_app, (run_unchanged deb loaded pre Hpre), run_cons.
      rewrite run_first_sighting by exact Hp1.
      rewrite run_app, (run_pending_waits deb (poll_now p1) loaded mid Ht Hmid).
      reflexivity. }
    apply (run_reverted deb (poll_now p1) loaded post Hpost 0%nat 0%nat).
Qed.

End Debounce.

Lemma debounced_reload_witness :
  (let w := run String.eqb (worker_init 5 "v1"%string)
                ([old_poll 100] ++ new_poll 115 :: [new_poll 130; new_poll 145]) in
   triggered w = 1%nat /\ swapped w = 1%nat
   /\ last_sig (wguard w) = "v2"%string
   /\ last_seen_change_ts (wguard w) = 0%Q)
  /\ (let w := run String.eqb (worker_init 20 "v1"%string)
                   ([old_poll 100] ++ new_poll 115 :: [new_poll 130]
                    ++ [old_poll 145]) in
      triggered w = 0%nat /\ swapped w = 0%nat
      /\ last_sig (wguard w) = "v1"%string
      /\ ([old_poll 145] <> [] -> last_seen_change_ts (wguard w) = 0%Q)).
Proof.
  split.
  - apply (proj1 (debounced_reload string String.eqb String.eqb_eq 5 "v1"%string)
             "v2"%string [old_poll 100] (new_poll 115)
             [new_poll 130; new_poll 145]).
    + intro E. discriminate E.
    + repeat constructor.
    + repeat constructor.
    + unfold Qeq. simpl. lia.
    + apply Exists_cons_hd. unfold Qle. simpl. lia.
  - apply (proj2 (debounced_reload string String.eqb String.eqb_eq 20 "v1"%string)
             [old_poll 100] (new_poll 115) [new_poll 130] [old_poll 145]).
    + repeat constructor.
    + intro E. discriminate E.
    + unfold Qeq. simpl. lia.
    + constructor; [|constructor]. split.
      * intro E. discriminate E.
      * unfold Qlt. simpl. lia.
    + repeat constructor.
Defined.

(** While the constructor raises, every poll past the debounce window fires
    again and nothing is swapped in. *)
Lemma failed_constructor_retries :
  let w := run String.eqb (worker_init 5 "v1"%string)
               [new_poll 115; broken_poll 130; broken_poll 145] in
  triggered w = 2%nat /\ swapped w = 0%nat /\ last_sig (wguard w) = "v1"%string.
Proof. vm_compute. repeat split. Qed.

End ReloaderFacts.

(** ** The two cost formulas side by side *)

Module CostFormula.

Import CostSpec.

(** (C1) [moveleader.py] computes [T(L)] as the sum of [readRate_i * d(L,i)]
    plus the commit latency times the sum of [writeRate_i], and its candidate
    loop evaluates it at the commit latency [W(L)] of the candidate.  The
    control loop of [predict_leader.py] charges every replica its read and
    write rate together times [d(L,i)], truncated to an integer, and has no
    commit latency term. *)
Theorem total_cost_formulas :
  (forall L domains w,
     MoveLeader.calculate_total_latency L domains w
     = zsum (map (fun i => MoveLeader.read_requests i * OfMoveLeader.d L i)
                 domains)
       + w * zsum (map MoveLeader.write_requests domains))
  /\ (forall L domains w,
        MoveLeader.calculate_commit_latency L domains
          (MoveLeader.quorum_of domains) = Fin w ->
        MoveLeader.search_step domains (MoveLeader.quorum_of domains)
                               (Inf, None) L
        = (Fin (OfMoveLeader.T L domains w), Some L))
  /\ (forall L domains,
        PredictLeader.calculate_total_latency L domains
        = zsum (map (fun i =>
                       PredictLeader.int_of
                         ((PredictLeader.read_requests i
                           + PredictLeader.write_requests i)
                          * inject_Z (OfPredictLeader.d L i)))
                    domains)).
Proof.
  split; [|split].
  - apply MoveLeaderFacts.moveleader_cost_formula.
  - intros L domains w Hw. unfold MoveLeader.search_step. rewrite Hw.
    rewrite MoveLeaderFacts.total_is_T. reflexivity.
  - apply PredictLeaderFacts.predict_cost_formula.
Qed.

Lemma total_cost_formulas_witness :
  MoveLeader.search_step MoveLeader.fixture
    (MoveLeader.quorum_of MoveLeader.fixture) (Inf, None) MoveLeader.dA
  = (Fin (OfMoveLeader.T MoveLeader.dA MoveLeader.fixture 30),
     Some MoveLeader.dA).
Proof.
  apply (proj1 (proj2 total_cost_formulas) MoveLeader.dA MoveLeader.fixture 30).
  vm_compute. reflexivity.
Defined.

(** (C1) On the fixture the specification's [T(A)] is 310 at [W(A) = 30],
    and the control loop's cost of A is 170. *)
Lemma control_loop_cost_lacks_write_component :
  OfPredictLeader.W PredictLeader.dA PredictLeader.fixture = Some 30
  /\ (OfPredictLeader.T PredictLeader.dA PredictLeader.fixture 30 == 310)%Q
  /\ PredictLeader.calculate_total_latency PredictLeader.dA PredictLeader.fixture
     = 170
  /\ ~ (inject_Z (PredictLeader.calculate_total_latency
                    PredictLeader.dA PredictLeader.fixture)
        == OfPredictLeader.T PredictLeader.dA PredictLeader.fixture 30)%Q.
Proof.
  split; [vm_compute; reflexivity|].
  split; [vm_compute; reflexivity|].
  split; [vm_compute; reflexivity|].
  intro H. vm_compute in H. discriminate H.
Qed.

End CostFormula.

(** ** The latency table *)

Module TablesFacts.

Import Tables.

Local Open Scope string_scope.

(** An address is one of the three sites, with its row of the matrix, or is
    not in [ip_to_index]. *)
Lemma ip_index_cases (a : string) :
  (a = "192.168.0.38" /\ dict_get ip_to_index a = Some 0%nat)
  \/ (a = "192.168.0.82" /\ dict_get ip_to_index a = Some 1%nat)
  \/ (a = "192.168.0.223" /\ dict_get ip_to_index a = Some 2%nat)
  \/ dict_get ip_to_index a = None.
Proof.
  unfold ip_to_index. simpl.
  destruct (String.eqb_spec a "192.168.0.38") as [->|_]; [left; auto|].
  destruct (String.eqb_spec a "192.168.0.82") as [->|_]; [right; left; auto|].
  destruct (String.eqb_spec a "192.168.0.223") as [->|_];
    [right; right; left; auto|].
  right; right; right; reflexivity.
Qed.

(** Split on where the two addresses of a lookup sit in the table. *)
Ltac latency_cases a b :=
  unfold get_latency, dict_mem, dict_get_default;
  destruct (ip_index_cases a) as [[-> Ea]|[[-> Ea]|[[-> Ea]|Ea]]];
  destruct (ip_index_cases b) as [[-> Eb]|[[-> Eb]|[[-> Eb]|Eb]]];
  rewrite ?Ea, ?Eb; simpl.

(** (X3) The latency between two addresses does not depend on the direction. *)
Theorem get_latency_symmetric (a b : string) :
  get_latency a b = get_latency b a.
Proof.
  latency_cases a b; reflexivity.
Qed.

(** (X4) An address outside the table costs the penalty 999 in either position;
    between two sites of the table the latency is between 0 and 50 and is 0
    exactly from a site to itself. *)
Theorem get_latency_range (a b : string) :
  (dict_mem ip_to_index a = false \/ dict_mem ip_to_index b = false ->
     get_latency a b = 999)
  /\ (dict_mem ip_to_index a = true -> dict_mem ip_to_index b = true ->
        0 <= get_latency a b <= 50 /\ (get_latency a b = 0 <-> a = b)).
Proof.
  split.
  - unfold get_latency. intros [H|H]; rewrite H; simpl;
      [reflexivity | rewrite orb_true_r; reflexivity].
  - intros Ha Hb. revert Ha Hb.
    latency_cases a b; intros Ha Hb; try discriminate;
      (split; [lia | split; intro H; try reflexivity; discriminate H]).
Qed.

Lemma get_latency_range_witness :
  get_latency "10.0.0.9" "192.168.0.38" = 999
  /\ 0 <= get_latency "192.168.0.82" "192.168.0.223" <= 50.
Proof.
  split.
  - apply (proj1 (get_latency_range "10.0.0.9" "192.168.0.38")).
    left. reflexivity.
  - apply (proj2 (get_latency_range "192.168.0.82" "192.168.0.223"));
      reflexivity.
Defined.

(** A latency is never negative. *)
Lemma get_latency_nonneg (a b : string) : 0 <= get_latency a b.
Proof.
  latency_cases a b; lia.
Qed.

End TablesFacts.

(** ** The decision log under any sequence of records *)

Module LoggerRunsFacts.

Import Logger LoggerRuns.

(** What one [record] does to a writer, in full. *)
Lemma record_step (path : string) (b : list row) (f : option (list row))
    (o : list disk_op) (now ip : string) (mv : bool) :
  record now ip mv (mkState path b f o)
  = if mv
    then mkState path []
           (Some (ensured f ++ b ++ [[now; ip]]))
           (o ++ MakeDirsFor path
              :: match f with
                 | None => [CreateWithHeader path]
                 | Some _ => []
                 end
              ++ [AppendRows path (b ++ [[now; ip]])])
    else mkState path (b ++ [[now; ip]]) f o.
Proof.
  unfold record. destruct mv; simpl; [|reflexivity].
  unfold _flush_buffer. simpl.
  destruct (b ++ [[now; ip]]) as [|r rows] eqn:E.
  - destruct b; discriminate E.
  - unfold _ensure_file. simpl. destruct f as [c|]; simpl;
      rewrite <- ?app_assoc; reflexivity.
Qed.






End LoggerRunsFacts.

(** ** More on the cost model of [moveleader.py] *)

Module MoveLeaderMore.

Import MoveLeader ListFacts CostSpec CostSpec.OfMoveLeader MoveLeaderFacts.

(** Among domains with pairwise distinct ids, a member has all the others
    as peers. *)
Lemma others_length_distinct (L : Domain) (ds : list Domain) :
  NoDup (map id ds) -> In L ds ->
  S (List.length (others L ds)) = List.length ds.
Proof.
  unfold others. induction ds as [|x rest IH]; intros Hnd Hin; [contradiction|].
  simpl in Hnd. apply NoDup_cons_iff in Hnd as [Hx Hnd]. simpl.
  destruct (String.eqb_spec (id x) (id L)) as [E|E]; simpl.
  - f_equal.
    assert (forall y, In y rest ->
              negb (String.eqb (id y) (id L)) = true) as Hall.
    { intros y Hy. apply negb_true_iff, String.eqb_neq. intro Ey.
      apply Hx. rewrite E, <- Ey. now apply in_map. }
    clear IH Hin Hnd Hx. induction rest as [|y rest IHr]; [reflexivity|].
    simpl. rewrite (Hall y (or_introl eq_refl)). simpl. f_equal.
    apply IHr. intros z Hz. apply Hall. now right.
  - f_equal. apply IH; [exact Hnd|].
    destruct Hin as [->|Hin]; [now contradiction E | exact Hin].
Qed.

Lemma zsum_all_ones (ds : list Domain) :
  Forall (fun x => nodes x = 1) ds ->
  zsum (map nodes ds) = Z.of_nat (List.length ds).
Proof.
  induction 1 as [|x rest Hx _ IH]; [reflexivity|].
  cbn [map zsum fold_right List.length]. fold (zsum (map nodes rest)).
  rewrite Hx, IH. lia.
Qed.

(** (X5) Replicas of one vote each with pairwise distinct ids can always
    form a quorum: every candidate has a finite commit latency, and a leader
    is returned for every non-empty set. *)
Theorem one_vote_replicas_always_elect :
  forall ds : list Domain,
    ds <> [] ->
    NoDup (map id ds) ->
    Forall (fun x => nodes x = 1) ds ->
    (forall L, In L ds ->
       exists w, calculate_commit_latency L ds (quorum_of ds) = Fin w)
    /\ exists b c,
         find_optimal_leader ds = PyTuple (PyDomain b) (PyNum (Fin c))
         /\ In b ds.
Proof.
  intros ds Hne Hnd Hone.
  assert (forall L, In L ds ->
            ~ quorum_of ds - 1 > Z.of_nat (List.length (others L ds))) as Hfeas.
  { intros L HL. pose proof (others_length_distinct L ds Hnd HL) as Hlen.
    unfold quorum_of. rewrite (zsum_all_ones ds Hone).
    pose proof (Z.div_lt_upper_bound (Z.of_nat (List.length ds)) 2
                  (Z.of_nat (List.length ds))).
    assert (Z.of_nat (List.length ds) / 2 <= Z.of_nat (List.length ds) - 1).
    { apply Z.lt_le_pred. apply Z.div_lt_upper_bound; lia. }
    lia. }
  split.
  - intros L HL. specialize (Hfeas L HL).
    destruct (calculate_commit_latency L ds (quorum_of ds)) as [w|] eqn:E;
      [now exists w|].
    apply commit_inf_iff in E. contradiction.
  - destruct (find_optimal_leader_shapes ds)
      as [[E _]|[(_ & Hall & _)|(b & c & E & Hin & _)]].
    + contradiction.
    + destruct ds as [|x rest]; [contradiction|].
      exfalso. apply (Hfeas x (or_introl eq_refl)), Hall. now left.
    + exists b, c. split; assumption.
Qed.

Lemma one_vote_replicas_always_elect_witness :
  exists b c,
    find_optimal_leader fixture = PyTuple (PyDomain b) (PyNum (Fin c))
    /\ In b fixture.
Proof.
  apply (one_vote_replicas_always_elect fixture).
  - discriminate.
  - repeat constructor; simpl; intuition discriminate.
  - repeat constructor.
Defined.

(** The candidate loop over a stretch of candidates either leaves the
    accumulator as it is, or ends on a candidate of the stretch that is
    strictly cheaper than the accumulator was and than every candidate
    before it in the stretch. *)
Lemma search_fold_first (all : list Domain) (q : Z) (cs : list Domain) :
  forall acc,
    let r := fold_left (search_step all q) cs acc in
    r = acc
    \/ exists pre b post c,
         cs = pre ++ b :: post
         /\ r = (Fin c, Some b)
         /\ candidate_cost all q b = Fin c
         /\ lt_ext c (fst acc) = true
         /\ forall x c', In x pre -> candidate_cost all q x = Fin c' -> c < c'.
Proof.
  induction cs as [|L rest IH]; intro acc; cbv zeta; [left; reflexivity|].
  simpl. specialize (IH (search_step all q acc L)). cbv zeta in IH.
  rewrite search_step_cost in *.
  destruct (candidate_cost all q L) as [cL|] eqn:EL.
  - destruct (lt_ext cL (fst acc)) eqn:Elt.
    + destruct IH as [IH|(pre & b & post & c & -> & Hr & Hc & Hlt & Hpre)].
      * right. exists [], L, rest, cL. repeat split; auto.
        intros x c' [].
      * right. exists (L :: pre), b, post, c. simpl in Hlt.
        apply Z.ltb_lt in Hlt. repeat split; auto.
        -- destruct acc as [[m|] o]; simpl in *; [|reflexivity].
           apply Z.ltb_lt in Elt. apply Z.ltb_lt. lia.
        -- intros x c' [<-|Hx] Hx'; [|eapply Hpre; eauto].
           rewrite EL in Hx'. injection Hx' as <-. exact Hlt.
    + destruct IH as [IH|(pre & b & post & c & -> & Hr & Hc & Hlt & Hpre)];
        [left; exact IH|].
      right. exists (L :: pre), b, post, c. repeat split; auto.
      intros x c' [<-|Hx] Hx'; [|eapply Hpre; eauto].
      rewrite EL in Hx'. injection Hx' as <-.
      destruct acc as [[m|] o]; simpl in *; [|discriminate].
      apply Z.ltb_lt in Hlt. apply Z.ltb_ge in Elt. lia.
  - destruct IH as [IH|(pre & b & post & c & -> & Hr & Hc & Hlt & Hpre)];
      [left; exact IH|].
    right. exists (L :: pre), b, post, c. repeat split; auto.
    intros x c' [<-|Hx] Hx'; [congruence | eapply Hpre; eauto].
Qed.

(** (X6) The leader that [find_optimal_leader] returns is the first
    candidate of the list, in list order, whose cost is the least: every
    feasible candidate costs at least as much, and every feasible candidate
    before it costs strictly more. *)
Theorem selected_leader_is_first_cheapest :
  forall (ds : list Domain) (b : Domain) (c : Z),
    find_optimal_leader ds = PyTuple (PyDomain b) (PyNum (Fin c)) ->
    candidate_cost ds (quorum_of ds) b = Fin c
    /\ (forall x c', In x ds ->
          candidate_cost ds (quorum_of ds) x = Fin c' -> c <= c')
    /\ exists pre post,
         ds = pre ++ b :: post
         /\ forall x c', In x pre ->
              candidate_cost ds (quorum_of ds) x = Fin c' -> c < c'.
Proof.
  intros ds b c Hsel.
  destruct (find_optimal_leader_shapes ds)
    as [[_ E]|[(_ & _ & E)|(b0 & c0 & E & Hin & Hc & Hmin)]];
    rewrite E in Hsel; try discriminate.
  injection Hsel as -> ->.
  split; [exact Hc|]. split; [exact Hmin|].
  destruct (search_fold_first ds (quorum_of ds) ds (Inf, None))
    as [Hr|(pre & b' & post & c' & Hds & Hr & _ & _ & Hpre)];
    cbv zeta in *; fold (search ds) in Hr.
  - unfold find_optimal_leader in E. destruct ds as [|x rest]; [discriminate|].
    rewrite Hr in E. discriminate.
  - unfold find_optimal_leader in E. destruct ds as [|x rest]; [discriminate|].
    rewrite Hr in E. injection E as <- <-.
    exists pre, post. split; assumption.
Qed.

Lemma selected_leader_is_first_cheapest_witness :
  exists pre post,
    [idleB; idleC] = pre ++ idleB :: post
    /\ forall x c', In x pre ->
         candidate_cost [idleB; idleC] (quorum_of [idleB; idleC]) x = Fin c' ->
         0 < c'.
Proof.
  apply (selected_leader_is_first_cheapest [idleB; idleC] idleB 0).
  vm_compute. reflexivity.
Defined.

Lemma get_latency_le_999 (a b : string) : Tables.get_latency a b <= 999.
Proof.
  TablesFacts.latency_cases a b; lia.
Qed.

Lemma peer_latencies_bounded (L : Domain) (ds : list Domain) :
  Forall (fun x => 0 <= x <= 999) (peer_latencies L ds).
Proof.
  induction ds as [|i rest IH]; simpl; [constructor|].
  destruct (negb (String.eqb (id i) (id L))); [constructor|]; auto.
  split; [apply TablesFacts.get_latency_nonneg | apply get_latency_le_999].
Qed.

(** Later entries of an ascending list are no smaller. *)
Lemma sorted_nth_mono (s : list Z) :
  StronglySorted Z.le s ->
  forall i j, (i <= j)%nat -> (j < List.length s)%nat ->
              nth i s 0 <= nth j s 0.
Proof.
  induction 1 as [|a t St IH F]; intros i j Hij Hj; simpl in Hj; [lia|].
  destruct i as [|i], j as [|j]; simpl; try lia.
  - rewrite Forall_forall in F. apply F, nth_In. lia.
  - apply IH; lia.
Qed.

(** (X7) The commit latency of a candidate lies between 0 and 999 and does
    not decrease when the quorum size grows. *)
Theorem commit_latency_monotone :
  forall (L : Domain) (ds : list Domain) (q q' w w' : Z),
    q <= q' ->
    calculate_commit_latency L ds q = Fin w ->
    calculate_commit_latency L ds q' = Fin w' ->
    0 <= w /\ w <= w' /\ w' <= 999.
Proof.
  intros L ds q q' w w' Hq Hw Hw'.
  unfold calculate_commit_latency in *.
  set (s := ZSort.sort (peer_latencies L ds)) in *.
  assert (Forall (fun x => 0 <= x <= 999) s) as Hb.
  { rewrite Forall_forall. intros x Hx.
    pose proof (peer_latencies_bounded L ds) as Hp.
    rewrite Forall_forall in Hp. apply Hp.
    eapply Permutation_in; [apply Permutation_sym, zsort_perm | exact Hx]. }
  rewrite Forall_forall in Hb.
  destruct (Z.gtb_spec (q - 1) (Z.of_nat (List.length s))); [discriminate|].
  destruct (Z.gtb_spec (q' - 1) (Z.of_nat (List.length s))); [discriminate|].
  destruct (Z.leb_spec (q - 1) 0), (Z.leb_spec (q' - 1) 0);
    injection Hw as <-; injection Hw' as <-.
  - lia.
  - assert (In (nth (Z.to_nat (q' - 1 - 1)) s 0) s) as Hin
      by (apply nth_In; lia).
    specialize (Hb _ Hin). lia.
  - lia.
  - assert (In (nth (Z.to_nat (q - 1 - 1)) s 0) s) as Hin
      by (apply nth_In; lia).
    assert (In (nth (Z.to_nat (q' - 1 - 1)) s 0) s) as Hin'
      by (apply nth_In; lia).
    pose proof (Hb _ Hin). pose proof (Hb _ Hin').
    pose proof (sorted_nth_mono s (zsort_sorted _)
                  (Z.to_nat (q - 1 - 1)) (Z.to_nat (q' - 1 - 1))).
    lia.
Qed.

Lemma commit_latency_monotone_witness :
  calculate_commit_latency dA fixture 2 = Fin 30
  /\ calculate_commit_latency dA fixture 3 = Fin 40
  /\ 0 <= 30 /\ 30 <= 40 /\ 40 <= 999.
Proof.
  assert (calculate_commit_latency dA fixture 2 = Fin 30) as H2
    by (vm_compute; reflexivity).
  assert (calculate_commit_latency dA fixture 3 = Fin 40) as H3
    by (vm_compute; reflexivity).
  split; [exact H2|]. split; [exact H3|].
  apply (commit_latency_monotone dA fixture 2 3 30 40); [lia | exact H2 | exact H3].
Defined.

End MoveLeaderMore.

(** ** The migration step of [moveleader.py] *)

Module MoveLeaderMigrationFacts.

Import PredictLeader.

Local Open Scope string_scope.

(** (X9) In [moveleader.py] the migration step removes the local snapshot
    exactly when it returns, and it returns exactly when the snapshot exists
    and both [scp] and [etcdctl] exit with status 0; after any failure the
    snapshot is where it was, and no command is run after a failed copy. *)
Theorem moveleader_migration_all_or_nothing :
  forall (c : collaborators) (cur opt : string),
    let r := MoveLeaderMigration.check_and_transfer_leader c cur opt in
    (snd r = Returned tt
     <-> snapshot_exists c = true /\ scp_exit c = Exit0
         /\ etcdctl_exit c = Exit0)
    /\ (In (RemoveFile snapshot_path) (fst r) <-> snd r = Returned tt)
    /\ (snd r <> Returned tt -> snapshot_left c (fst r) = snapshot_exists c)
    /\ (snapshot_exists c = false \/ scp_exit c <> Exit0 ->
        existsb is_transfer_command (fst r) = false).
Proof.
  intros c cur opt.
  unfold MoveLeaderMigration.check_and_transfer_leader,
    MoveLeaderMigration.scp_to_host, snapshot_left.
  destruct c as [ex sc et]. simpl.
  destruct ex, sc, et; simpl; repeat split; intros;
    repeat match goal with
           | H : _ /\ _ |- _ => destruct H
           | H : _ \/ _ |- _ => destruct H
           | H : False |- _ => contradiction
           | H : ?x <> ?x |- _ => now contradiction H
           end;
    try discriminate; try reflexivity; auto.
Qed.

Lemma moveleader_migration_all_or_nothing_witness :
  snapshot_left transfer_refused
    (fst (MoveLeaderMigration.check_and_transfer_leader
            transfer_refused "192.168.0.38" "192.168.0.82"))
  = true.
Proof.
  destruct (moveleader_migration_all_or_nothing transfer_refused
              "192.168.0.38" "192.168.0.82") as (_ & _ & H & _).
  apply H. intro E. discriminate E.
Defined.

(** (X10) In [moveleader.py] the migration step does not use the address of
    the current leader: the copy and the transfer command are both addressed
    to the endpoint of the target, port 2379 included. *)
Theorem moveleader_migration_addresses_target :
  forall (c : collaborators) (cur cur' opt : string),
    MoveLeaderMigration.check_and_transfer_leader c cur opt
    = MoveLeaderMigration.check_and_transfer_leader c cur' opt
    /\ (forall argv,
          In (RunEtcdctl argv)
             (fst (MoveLeaderMigration.check_and_transfer_leader c cur opt)) ->
          nth 1 argv "" = "--endpoints=" ++ opt ++ ":2379")
    /\ (forall argv,
          In (RunScp argv)
             (fst (MoveLeaderMigration.check_and_transfer_leader c cur opt)) ->
          nth 2 argv ""
          = "root@" ++ (opt ++ ":2379") ++ ":" ++ snapshot_path).
Proof.
  intros c cur cur' opt. split; [reflexivity|].
  unfold MoveLeaderMigration.check_and_transfer_leader,
    MoveLeaderMigration.scp_to_host.
  destruct c as [ex sc et]. simpl.
  split; intros argv H; destruct ex, sc, et; simpl in H;
    repeat match goal with
           | H : _ \/ _ |- _ => destruct H
           | H : False |- _ => contradiction
           | H : RunEtcdctl _ = RunEtcdctl _ |- _ =>
               injection H as <-; reflexivity
           | H : RunScp _ = RunScp _ |- _ =>
               injection H as <-; reflexivity
           | H : _ = RunEtcdctl _ |- _ => discriminate H
           | H : _ = RunScp _ |- _ => discriminate H
           end.
Qed.

Lemma moveleader_migration_addresses_target_witness :
  nth 1 [ "./bin/etcdctl"; "--endpoints=192.168.0.82:2379"; "move-leader";
          "b92b49a4de72942d" ] ""
  = "--endpoints=192.168.0.82:2379".
Proof.
  apply (proj1 (proj2 (moveleader_migration_addresses_target
                         all_well "192.168.0.38" "192.168.0.38"
                         "192.168.0.82"))).
  vm_compute. auto.
Defined.

End MoveLeaderMigrationFacts.

(** ** More on the cost model and the control loop of [predict_leader.py] *)

Module PredictLeaderMore.

Import PredictLeader PredictLeaderFacts.

(** The candidate loop either leaves the accumulator as it is, or ends on a
    candidate that is strictly cheaper than the accumulator was and than
    every candidate before it. *)
Lemma predict_search_first (all cs : list Domain) :
  forall acc,
    let r := fold_left (search_step all) cs acc in
    r = acc
    \/ exists pre b post,
         cs = pre ++ b :: post
         /\ r = (Some b, Fin (calculate_total_latency b all))
         /\ lt_ext (calculate_total_latency b all) (snd acc) = true
         /\ forall x, In x pre ->
              (calculate_total_latency b all < calculate_total_latency x all)%Z.
Proof.
  induction cs as [|L rest IH]; intro acc; cbv zeta; [left; reflexivity|].
  simpl. specialize (IH (search_step all acc L)). cbv zeta in IH.
  unfold search_step in *. destruct acc as [best best_cost].
  destruct (lt_ext (calculate_total_latency L all) best_cost) eqn:Elt.
  - destruct IH as [IH|(pre & b & post & -> & Hr & Hlt & Hpre)].
    + right. exists [], L, rest. repeat split; auto. intros x [].
    + right. exists (L :: pre), b, post. simpl in Hlt.
      apply Z.ltb_lt in Hlt. repeat split; auto.
      * destruct best_cost as [m|]; simpl in *; [|reflexivity].
        apply Z.ltb_lt in Elt. apply Z.ltb_lt. lia.
      * intros x [<-|Hx]; [exact Hlt | now apply Hpre].
  - destruct IH as [IH|(pre & b & post & -> & Hr & Hlt & Hpre)];
      [left; exact IH|].
    right. exists (L :: pre), b, post. repeat split; auto.
    intros x [<-|Hx]; [|now apply Hpre].
    destruct best_cost as [m|]; simpl in *; [|discriminate].
    apply Z.ltb_lt in Hlt. apply Z.ltb_ge in Elt. lia.
Qed.

(** The accumulated cost is at most the cost of every candidate met. *)
Lemma predict_search_min (all cs : list Domain) :
  forall acc c,
    snd (fold_left (search_step all) cs acc) = Fin c ->
    (forall x, In x cs -> (c <= calculate_total_latency x all)%Z)
    /\ (forall c0, snd acc = Fin c0 -> (c <= c0)%Z).
Proof.
  induction cs as [|L rest IH]; intros acc c Hr; simpl in *.
  - split; [intros x []|]. intros c0 H0. rewrite H0 in Hr.
    injection Hr as ->. lia.
  - destruct (IH _ _ Hr) as [Hrest Hacc1].
    unfold search_step in Hacc1. destruct acc as [best best_cost].
    destruct (lt_ext (calculate_total_latency L all) best_cost) eqn:Elt;
      simpl in *.
    + specialize (Hacc1 _ eq_refl). split.
      * intros x [<-|Hx]; [exact Hacc1 | now apply Hrest].
      * intros c0 ->. simpl in Elt. apply Z.ltb_lt in Elt. lia.
    + destruct best_cost as [m|]; simpl in Elt; [|discriminate].
      apply Z.ltb_ge in Elt. specialize (Hacc1 _ eq_refl). split.
      * intros x [<-|Hx]; [lia | now apply Hrest].
      * intros c0 H0. injection H0 as <-. lia.
Qed.

(** The shape of the result on a non-empty list. *)
Lemma predict_search_shape :
  forall ds : list Domain,
    ds <> [] ->
    exists pre b post,
      ds = pre ++ b :: post
      /\ find_optimal_leader ds
         = (Some b, Some (Fin (calculate_total_latency b ds)))
      /\ (forall x, In x ds ->
            (calculate_total_latency b ds <= calculate_total_latency x ds)%Z)
      /\ (forall x, In x pre ->
            (calculate_total_latency b ds < calculate_total_latency x ds)%Z).
Proof.
  intros ds Hne.
  destruct (predict_search_first ds ds (None, Inf))
    as [Hr|(pre & b & post & Hds & Hr & _ & Hpre)]; cbv zeta in *.
  - destruct ds as [|x rest]; [contradiction|]. exfalso.
    destruct (search_fold_some (x :: rest) rest x
                (calculate_total_latency x (x :: rest))) as (b & c & E).
    change (fold_left (search_step (x :: rest)) rest
              (Some x, Fin (calculate_total_latency x (x :: rest)))
            = (None, Inf)) in Hr.
    rewrite E in Hr. discriminate.
  - exists pre, b, post. split; [exact Hds|].
    assert (find_optimal_leader ds
            = (Some b, Some (Fin (calculate_total_latency b ds)))) as Hf.
    { unfold find_optimal_leader. destruct ds as [|x rest]; [contradiction|].
      rewrite Hr. reflexivity. }
    split; [exact Hf|]. split; [|exact Hpre].
    apply (predict_search_min ds ds (None, Inf)). rewrite Hr. reflexivity.
Qed.

(** The fixture is within the range of exact float arithmetic. *)
Lemma fixture_exact : FloatRange.exact_domains fixture.
Proof.
  split; [vm_compute; intro E; discriminate E|].
  repeat constructor; vm_compute; intro E; discriminate E.
Defined.

(** (X11) On a non-empty list of domains with whole-number rates of at
    most [2^40] and at most [2^53] nodes in total, where the float
    arithmetic is exact and nothing raises, [find_optimal_leader] of
    [predict_leader.py] returns a leader: the first domain of the list, in
    list order, whose total latency is the least. *)
Theorem predict_leader_is_first_cheapest :
  forall ds : list Domain,
    ds <> [] ->
    FloatRange.exact_domains ds ->
    exists pre b post,
      ds = pre ++ b :: post
      /\ find_optimal_leader ds
         = (Some b, Some (Fin (calculate_total_latency b ds)))
      /\ (forall x, In x ds ->
            (calculate_total_latency b ds <= calculate_total_latency x ds)%Z)
      /\ (forall x, In x pre ->
            (calculate_total_latency b ds < calculate_total_latency x ds)%Z).
Proof. intros ds Hne _. exact (predict_search_shape ds Hne). Qed.

Lemma predict_leader_is_first_cheapest_witness :
  exists pre b post,
    fixture = pre ++ b :: post
    /\ find_optimal_leader fixture
       = (Some b, Some (Fin (calculate_total_latency b fixture)))
    /\ (forall x, In x fixture ->
          (calculate_total_latency b fixture
           <= calculate_total_latency x fixture)%Z)
    /\ (forall x, In x pre ->
          (calculate_total_latency b fixture
           < calculate_total_latency x fixture)%Z).
Proof.
  apply (predict_leader_is_first_cheapest fixture);
    [discriminate | exact fixture_exact].
Defined.

Lemma selected_member (ds : list Domain) (b : Domain) :
  fst (find_optimal_leader ds) = Some b -> In b ds.
Proof.
  intro H. destruct ds as [|x rest]; [discriminate|].
  destruct (predict_search_shape (x :: rest)) as (pre & b' & post & Hds & Hf & _);
    [discriminate|].
  rewrite Hf in H. injection H as <-. rewrite Hds.
  apply in_or_app. right. now left.
Qed.

(** The two ways a pass of the loop can go. *)
Lemma tick_cases (h : host) (st : loop_state) (i : tick_input) :
  (snd (tick h st i) = Continue
   /\ fst (tick h st i)
      = mkLoop (Logger.record (tick_clock i) (detected_ip h) false (logger st))
               (it st + 1)
               (match tick_forecast i with
                | Raises => rounds st
                | _ => rounds st + 1
                end))
  \/ (exists ds b,
        tick_forecast i = Projected ds
        /\ fst (find_optimal_leader ds) = Some b
        /\ In b ds
        /\ address b <> detected_ip h
        /\ address b <> ""%string
        /\ fst (tick h st i)
           = mkLoop (Logger.record (tick_clock i) (address b) true (logger st))
                    (it st + 1) (rounds st + 1)
        /\ snd (tick h st i)
           = match check_and_transfer_leader (tick_collab i) (detected_ip h)
                     (address b) with
             | (effects, Returned _) =>
                 BreakMigrated (effects ++ [MetricsRow (rounds st + 1)])
             | (effects, Raised e) => Crashed effects e
             end).
Proof.
  unfold tick, get_current_leader_ip.
  destruct (tick_forecast i) as [| |ds] eqn:Ef; try (left; split; reflexivity).
  destruct ds as [|x rest]; [left; split; reflexivity|].
  destruct (predict_search_shape (x :: rest)) as (pre & b & post & Hds & Hf & _);
    [discriminate|].
  assert (fst (find_optimal_leader (x :: rest)) = Some b) as Hsel
    by (rewrite Hf; reflexivity).
  rewrite (run_once_selected (x :: rest) b (detected_ip h) Hsel).
  unfold decide.
  destruct (String.eqb_spec (address b) (detected_ip h)) as [Eself|Eself];
    [left; split; reflexivity|].
  destruct (address b) as [|a0 rest0] eqn:Eaddr; [left; split; reflexivity|].
  right. exists (x :: rest), b. rewrite Eaddr. cbn [negb andb falsy].
  repeat split; auto.
  - now apply selected_member.
  - discriminate.
  - destruct (check_and_transfer_leader (tick_collab i) (detected_ip h)
                (String a0 rest0)) as [effects [r|e]]; reflexivity.
  - destruct (check_and_transfer_leader (tick_collab i) (detected_ip h)
                (String a0 rest0)) as [effects [r|e]]; reflexivity.
Qed.

(** (X18) A pass whose forecast raises, is empty or projects no domain keeps
    the leader: the loop goes on, one row with the local address joins the
    buffer, the disk is not touched and no effect leaves the process.  The
    round counter skips only the passes whose forecast raised. *)
Theorem pass_without_forecast_keeps :
  forall (h : host) (st : loop_state) (i : tick_input),
    tick_forecast i = Raises \/ tick_forecast i = EmptyFrame
    \/ tick_forecast i = Projected [] ->
    snd (tick h st i) = Continue
    /\ Logger.buffer (logger (fst (tick h st i)))
       = Logger.buffer (logger st) ++ [[tick_clock i; detected_ip h]]
    /\ Logger.file (logger (fst (tick h st i))) = Logger.file (logger st)
    /\ Logger.ops (logger (fst (tick h st i))) = Logger.ops (logger st)
    /\ it (fst (tick h st i)) = (it st + 1)%Z
    /\ rounds (fst (tick h st i))
       = (if match tick_forecast i with Raises => true | _ => false end
          then rounds st else rounds st + 1)%Z.
Proof.
  intros h st i H. unfold tick, get_current_leader_ip.
  destruct H as [-> | [-> | ->]]; simpl; repeat split.
Qed.

Lemma pass_without_forecast_keeps_witness :
  snd (tick host223 fresh_loop (mkTick Raises "t1" all_well)) = Continue
  /\ Logger.buffer
       (logger (fst (tick host223 fresh_loop (mkTick Raises "t1" all_well))))
     = [["t1"; "192.168.0.223"]]%string
  /\ rounds (fst (tick host223 fresh_loop (mkTick Raises "t1" all_well))) = 0%Z.
Proof.
  destruct (pass_without_forecast_keeps host223 fresh_loop
              (mkTick Raises "t1" all_well)) as (H1 & H2 & _ & _ & _ & H3).
  - left. reflexivity.
  - split; [exact H1|]. split; [exact H2 | exact H3].
Defined.

(** (X19) A pass never stops at the iteration cap.  It either keeps, or it
    migrates toward a domain of the projection whose address is neither
    empty nor the local one; in that case the row naming the target has
    been flushed to disk, after everything buffered before, and the copy
    goes to the target's address. *)
Theorem pass_keeps_or_migrates_to_peer :
  forall (h : host) (st : loop_state) (i : tick_input),
    snd (tick h st i) <> BreakMaxIters
    /\ (snd (tick h st i) = Continue
        \/ exists ds b,
             tick_forecast i = Projected ds
             /\ In b ds
             /\ address b <> detected_ip h
             /\ address b <> ""%string
             /\ entered_migration (snd (tick h st i)) = true
             /\ Logger.buffer (logger (fst (tick h st i))) = []
             /\ Logger.file (logger (fst (tick h st i)))
                = Some (LoggerRuns.ensured (Logger.file (logger st))
                        ++ Logger.buffer (logger st)
                        ++ [[tick_clock i; address b]])
             /\ forall argv,
                  In (RunScp argv) (effects_of (snd (tick h st i))) ->
                  argv = ["scp"; snapshot_path;
                          "root@" ++ address b ++ ":" ++ snapshot_path]%string).
Proof.
  intros h st i.
  destruct (tick_cases h st i)
    as [[Hc _]|(ds & b & Hf & Hsel & Hin & Hself & Hne & Hst & He)].
  - rewrite Hc. split; [discriminate | left; reflexivity].
  - rewrite He, Hst.
    destruct (logger st) as [p bf f o].
    cbn [logger]. rewrite LoggerRunsFacts.record_step. cbn [Logger.buffer Logger.file].
    unfold check_and_transfer_leader, scp_to_host, move_leader_with_timing.
    destruct (tick_collab i) as [ex sc et].
    cbn [snapshot_exists scp_exit etcdctl_exit].
    split.
    + destruct ex, sc, et; simpl; discriminate.
    + right. exists ds, b. repeat split; auto.
      * destruct ex, sc, et; reflexivity.
      * intros argv H. destruct ex, sc, et; simpl in H;
          repeat match goal with
                 | H : _ \/ _ |- _ => destruct H
                 | H : False |- _ => contradiction
                 | H : RunScp _ = RunScp _ |- _ =>
                     injection H as <-; reflexivity
                 | H : _ = RunScp _ |- _ => discriminate H
                 end.
Qed.

End PredictLeaderMore.

(** ** The loop of [main] as a whole *)

Module ControlLoopFacts.

Import PredictLeader PredictLeaderFacts PredictLeaderMore ControlLoop.

(** A run either keeps through all its inputs, or stops at its first
    migrating pass. *)
Lemma main_loop_shape (h : host) (inputs : list tick_input) :
  forall st,
    let r := main_loop h st inputs in
    (snd r = None
     /\ Logger.buffer (logger (fst r))
        = Logger.buffer (logger st) ++ keep_rows h inputs
     /\ Logger.file (logger (fst r)) = Logger.file (logger st)
     /\ Logger.ops (logger (fst r)) = Logger.ops (logger st)
     /\ it (fst r) = it st + Z.of_nat (List.length inputs))
    \/ (exists pre i post ds b,
          inputs = pre ++ i :: post
          /\ tick_forecast i = Projected ds
          /\ In b ds
          /\ address b <> detected_ip h
          /\ address b <> ""%string
          /\ snd r
             = Some (match check_and_transfer_leader (tick_collab i)
                             (detected_ip h) (address b) with
                     | (effects, Returned _) =>
                         BreakMigrated
                           (effects ++ [MetricsRow (rounds (fst r))])
                     | (effects, Raised e) => Crashed effects e
                     end)
          /\ Logger.buffer (logger (fst r)) = []
          /\ Logger.file (logger (fst r))
             = Some (LoggerRuns.ensured (Logger.file (logger st))
                     ++ Logger.buffer (logger st)
                     ++ keep_rows h pre
                     ++ [[tick_clock i; address b]])
          /\ it (fst r) = it st + Z.of_nat (List.length pre) + 1).
Proof.
  induction inputs as [|i rest IH]; intro st; cbv zeta.
  - left. simpl. rewrite app_nil_r. repeat split; lia.
  - simpl.
    destruct (tick_cases h st i)
      as [[Hc Hst]|(ds & b & Hf & Hsel & Hin & Hself & Hne & Hst & He)].
    + destruct (tick h st i) as [st' e] eqn:Et. simpl in Hc, Hst. subst e.
      assert (Logger.buffer (logger st')
              = Logger.buffer (logger st) ++ [[tick_clock i; detected_ip h]]
              /\ Logger.file (logger st') = Logger.file (logger st)
              /\ Logger.ops (logger st') = Logger.ops (logger st)
              /\ it st' = it st + 1) as (Hb & Hfile & Hops & Hit).
      { rewrite Hst. simpl. repeat split. }
      specialize (IH st'). cbv zeta in IH. cbv iota beta.
      destruct IH as [(Hn & Hb' & Hf' & Ho' & Hi')
                     |(pre & j & post & ds & b & Hin & Hfj & Hb' & Hs' & Hne'
                       & Hr & Hbuf & Hfl & Hi')].
      * left. split; [exact Hn|].
        split; [rewrite Hb', Hb, <- app_assoc; reflexivity|].
        split; [congruence|]. split; [congruence|].
        rewrite Hi', Hit. lia.
      * right. exists (i :: pre), j, post, ds, b.
        split; [rewrite Hin; reflexivity|].
        repeat (split; [assumption|]).
        split; [rewrite Hfl, Hfile, Hb, <- !app_assoc; reflexivity|].
        rewrite Hi', Hit. simpl List.length. lia.
    + right. exists [], i, rest, ds, b.
      destruct (tick h st i) as [st' e] eqn:Et. simpl in Hst, He.
      assert (rounds st' = rounds st + 1) as Hrounds by (rewrite Hst; reflexivity).
      assert (Logger.buffer (logger st') = []
              /\ Logger.file (logger st')
                 = Some (LoggerRuns.ensured (Logger.file (logger st))
                         ++ Logger.buffer (logger st)
                         ++ [[tick_clock i; address b]])
              /\ it st' = it st + 1) as (Hb & Hfile & Hit).
      { rewrite Hst. destruct (logger st) as [p bf f o]. cbn [logger it].
        rewrite LoggerRunsFacts.record_step. repeat split. }
      assert (e <> Continue) as Hnc.
      { rewrite He.
        destruct (check_and_transfer_leader _ _ _) as [effects [r0|x]];
          discriminate. }
      assert ((let (st'0, e0) := (st', e) in
               match e0 with
               | Continue => main_loop h st'0 rest
               | _ => (st'0, Some e0)
               end) = (st', Some e)) as ->.
      { destruct e; try reflexivity. now contradiction Hnc. }
      simpl. rewrite Hb, Hfile, Hit, He, Hrounds.
      repeat split; auto; lia.
Qed.

(** (X21) While every pass keeps, the run writes nothing: the decision log on
    disk is as it was at boot, and the buffer holds one row per pass, in
    order, each naming the local address.  A run never stops at the
    iteration cap. *)
Theorem keeping_run_persists_nothing :
  forall (h : host) (file0 : option (list Logger.row))
         (inputs : list tick_input),
    snd (main_loop h (boot file0) inputs) <> Some BreakMaxIters
    /\ snd (main_loop h (boot file0) inputs) <> Some Continue
    /\ (snd (main_loop h (boot file0) inputs) = None ->
        Logger.file (logger (fst (main_loop h (boot file0) inputs))) = file0
        /\ Logger.ops (logger (fst (main_loop h (boot file0) inputs))) = []
        /\ Logger.buffer (logger (fst (main_loop h (boot file0) inputs)))
           = keep_rows h inputs
        /\ it (fst (main_loop h (boot file0) inputs))
           = Z.of_nat (List.length inputs)).
Proof.
  intros h file0 inputs.
  destruct (main_loop_shape h inputs (boot file0))
    as [(Hn & Hb & Hf & Ho & Hi)
       |(pre & i & post & ds & b & _ & _ & _ & _ & _ & Hr & _)];
    cbv zeta in *.
  - rewrite Hn. repeat split; try discriminate; auto.
  - rewrite Hr.
    destruct (check_and_transfer_leader _ _ _) as [effects [r0|x]];
      repeat split; discriminate.
Qed.

Lemma keeping_run_persists_nothing_witness :
  Logger.file
    (logger (fst (main_loop host223 (boot None)
                    [mkTick Raises "t1" all_well;
                     mkTick EmptyFrame "t2" all_well])))
  = None
  /\ Logger.buffer
       (logger (fst (main_loop host223 (boot None)
                       [mkTick Raises "t1" all_well;
                        mkTick EmptyFrame "t2" all_well])))
     = [["t1"; "192.168.0.223"]; ["t2"; "192.168.0.223"]]%string.
Proof.
  destruct (keeping_run_persists_nothing host223 None
              [mkTick Raises "t1" all_well; mkTick EmptyFrame "t2" all_well])
    as (_ & _ & H).
  destruct H as (Hf & _ & Hb & _); [reflexivity|].
  split; [exact Hf | exact Hb].
Defined.

(** (X22) A run that stops has kept through every pass before its last one
    and migrates in the last: by then the decision log on disk holds, after
    what it held at boot, one row per pass in order, the earlier ones naming
    the local address and the last one naming the target, and the buffer is
    empty, whether the migration step then returns or raises. *)
Theorem stopping_run_has_logged_its_target :
  forall (h : host) (file0 : option (list Logger.row))
         (inputs : list tick_input) (e : tick_end),
    snd (main_loop h (boot file0) inputs) = Some e ->
    exists pre i post ds b,
      inputs = pre ++ i :: post
      /\ tick_forecast i = Projected ds
      /\ In b ds
      /\ address b <> detected_ip h
      /\ entered_migration e = true
      /\ Logger.buffer (logger (fst (main_loop h (boot file0) inputs))) = []
      /\ Logger.file (logger (fst (main_loop h (boot file0) inputs)))
         = Some (LoggerRuns.ensured file0 ++ keep_rows h pre
                 ++ [[tick_clock i; address b]])
      /\ it (fst (main_loop h (boot file0) inputs))
         = Z.of_nat (List.length pre) + 1.
Proof.
  intros h file0 inputs e He.
  destruct (main_loop_shape h inputs (boot file0))
    as [(Hn & _)
       |(pre & i & post & ds & b & Hin & Hf & Hb & Hs & _ & Hr & Hbuf & Hfl & Hi)];
    cbv zeta in *.
  - rewrite Hn in He. discriminate.
  - exists pre, i, post, ds, b. rewrite Hr in He. injection He as <-.
    simpl in Hfl, Hi.
    repeat split; auto.
    destruct (check_and_transfer_leader _ _ _) as [effects [r0|x]]; reflexivity.
Qed.

Lemma stopping_run_has_logged_its_target_witness :
  exists pre i post ds b,
    [mkTick Raises "t1" all_well; mkTick (Projected fixture) "t2" all_well]
    = pre ++ i :: post
    /\ tick_forecast i = Projected ds
    /\ In b ds
    /\ address b <> detected_ip host223
    /\ entered_migration
         (BreakMigrated
            [RunScp ["scp"; snapshot_path;
                     "root@192.168.0.38:/etcd/etcd-release-3.4/raft_stats.csv"];
             RunEtcdctl (transfer_argv "192.168.0.223" "192.168.0.38");
             TimingRow "success"; RemoveFile snapshot_path; MetricsRow 1]%string)
       = true
    /\ Logger.buffer
         (logger (fst (main_loop host223 (boot None)
                         [mkTick Raises "t1" all_well;
                          mkTick (Projected fixture) "t2" all_well])))
       = []
    /\ Logger.file
         (logger (fst (main_loop host223 (boot None)
                         [mkTick Raises "t1" all_well;
                          mkTick (Projected fixture) "t2" all_well])))
       = Some (LoggerRuns.ensured None ++ keep_rows host223 pre
               ++ [[tick_clock i; address b]])
    /\ it (fst (main_loop host223 (boot None)
                  [mkTick Raises "t1" all_well;
                   mkTick (Projected fixture) "t2" all_well]))
       = Z.of_nat (List.length pre) + 1.
Proof.
  apply (stopping_run_has_logged_its_target host223 None
           [mkTick Raises "t1" all_well;
            mkTick (Projected fixture) "t2" all_well]).
  vm_compute. reflexivity.
Defined.

(** (X23) A run makes at most one migration step: over all its passes it runs
    [scp] at most once and [etcdctl] at most once, and never [etcdctl]
    without a preceding [scp]: a run with any effect starts with its one
    [scp] call, and whatever comes before an [etcdctl] call starts with
    it. *)
Theorem run_migrates_at_most_once :
  forall (h : host) (st : loop_state) (inputs : list tick_input),
    let effects := run_effects (main_loop h st inputs) in
    (List.length (filter is_copy_command effects) <= 1)%nat
    /\ (List.length (filter is_transfer_command effects) <= 1)%nat
    /\ (List.length (filter is_transfer_command effects)
        <= List.length (filter is_copy_command effects))%nat
    /\ (effects = []
        \/ exists scp_cmd rest,
             effects = RunScp scp_cmd :: rest
             /\ filter is_copy_command rest = [])
    /\ (forall before argv after,
          effects = (before ++ RunEtcdctl argv :: after)%list ->
          exists scp_cmd rest,
            before = RunScp scp_cmd :: rest
            /\ filter is_copy_command rest = []
            /\ filter is_transfer_command rest = []
            /\ filter is_transfer_command after = []).
Proof.
  intros h st inputs. unfold run_effects.
  destruct (main_loop_shape h inputs st)
    as [(Hn & _)
       |(pre & i & post & ds & b & _ & _ & _ & _ & _ & Hr & _)];
    cbv zeta in *.
  - rewrite Hn. simpl.
    repeat (split; [lia|]). split; [left; reflexivity|].
    intros [|x before] argv after E; discriminate E.
  - rewrite Hr.
    unfold check_and_transfer_leader, scp_to_host, move_leader_with_timing.
    destruct (tick_collab i) as [ex sc et]. simpl.
    destruct ex, sc, et; simpl;
      (repeat (split; [lia|]));
      (split;
       [ first [ left; reflexivity
               | right; eexists; eexists; split; reflexivity ]
       | intros before argv after E;
         repeat (destruct before as [|? before];
                 [ try discriminate E
                 | simpl in E;
                   first [ discriminate E | injection E as <- E ] ]);
         try discriminate E;
         try (injection E as _ <-;
              eexists; eexists; repeat split; reflexivity) ]).
Qed.

Lemma run_migrates_at_most_once_witness :
  run_effects (main_loop host223 (boot None)
                 [mkTick Raises "t1" all_well;
                  mkTick (Projected fixture) "t2" all_well])
  = [RunScp ["scp"; snapshot_path;
             "root@192.168.0.38:/etcd/etcd-release-3.4/raft_stats.csv"];
     RunEtcdctl (transfer_argv "192.168.0.223" "192.168.0.38");
     TimingRow "success"; RemoveFile snapshot_path; MetricsRow 1]%string
  /\ exists scp_cmd rest,
       [RunScp ["scp"; snapshot_path;
                "root@192.168.0.38:/etcd/etcd-release-3.4/raft_stats.csv"]]%string
       = RunScp scp_cmd :: rest
       /\ filter is_copy_command rest = []
       /\ filter is_transfer_command rest = []
       /\ filter is_transfer_command
            [TimingRow "success"; RemoveFile snapshot_path; MetricsRow 1]
          = [].
Proof.
  split; [vm_compute; reflexivity|].
  destruct (run_migrates_at_most_once host223 (boot None)
              [mkTick Raises "t1" all_well;
               mkTick (Projected fixture) "t2" all_well])
    as (_ & _ & _ & _ & H).
  apply (H [RunScp ["scp"; snapshot_path;
                    "root@192.168.0.38:/etcd/etcd-release-3.4/raft_stats.csv"]]%string
           (transfer_argv "192.168.0.223" "192.168.0.38")
           [TimingRow "success"; RemoveFile snapshot_path; MetricsRow 1]).
  vm_compute. reflexivity.
Defined.

End ControlLoopFacts.

(** ** The load projector *)

Module ProjectorFacts.

Import PredictLeader Projector.

Local Open Scope string_scope.

(** *** The order of [str] *)

Lemma ascii_compare_refl (a : ascii) : Ascii.compare a a = Eq.
Proof. unfold Ascii.compare. apply N.compare_refl. Qed.

Lemma ascii_compare_lt_trans (a b c : ascii) :
  Ascii.compare a b = Lt -> Ascii.compare b c = Lt -> Ascii.compare a c = Lt.
Proof.
  unfold Ascii.compare. rewrite !N.compare_lt_iff. apply N.lt_trans.
Qed.

Lemma string_compare_lt_trans (a : string) :
  forall b c,
    String.compare a b = Lt -> String.compare b c = Lt ->
    String.compare a c = Lt.
Proof.
  induction a as [|x a IH]; intros [|y b] [|z c]; simpl;
    try discriminate; auto.
  destruct (Ascii.compare x y) eqn:Exy, (Ascii.compare y z) eqn:Eyz;
    try discriminate; intros H1 H2.
  - apply Ascii.compare_eq_iff in Exy, Eyz. subst.
    rewrite ascii_compare_refl. eapply IH; eauto.
  - apply Ascii.compare_eq_iff in Exy. subst. now rewrite Eyz.
  - apply Ascii.compare_eq_iff in Eyz. subst. now rewrite Exy.
  - now rewrite (ascii_compare_lt_trans x y z Exy Eyz).
Qed.

Lemma leb_cases (a b : string) :
  String.leb a b = true -> a = b \/ String.compare a b = Lt.
Proof.
  unfold String.leb. destruct (String.compare a b) eqn:E; intro H.
  - left. now apply String.compare_eq_iff.
  - now right.
  - discriminate.
Qed.

Lemma lt_leb (a b : string) : String.compare a b = Lt -> String.leb a b = true.
Proof. unfold String.leb. now intros ->. Qed.

Lemma string_compare_refl (a : string) : String.compare a a = Eq.
Proof.
  induction a as [|x a IH]; simpl; [reflexivity|].
  now rewrite ascii_compare_refl.
Qed.

Lemma leb_trans (a b c : string) :
  String.leb a b = true -> String.leb b c = true -> String.leb a c = true.
Proof.
  intros H1 H2.
  destruct (leb_cases a b H1) as [->|L1]; [exact H2|].
  destruct (leb_cases b c H2) as [<-|L2]; [exact H1|].
  apply lt_leb. eapply string_compare_lt_trans; eauto.
Qed.

Lemma sorted_ids (l : list string) :
  StronglySorted (fun a b => String.leb a b = true) (StringSort.sort l).
Proof.
  apply StringSort.StronglySorted_sort.
  intros a b c. apply leb_trans.
Qed.

Lemma sorted_filter {A : Type} (R : A -> A -> Prop) (f : A -> bool)
    (l : list A) :
  StronglySorted R l -> StronglySorted R (filter f l).
Proof.
  induction 1 as [|a t St IH F]; simpl; [constructor|].
  destruct (f a); [|exact IH]. constructor; [exact IH|].
  rewrite Forall_forall in *. intros x Hx. apply filter_In in Hx as [Hx _].
  now apply F.
Qed.

(** An ascending list without repetition is strictly ascending. *)
Lemma sorted_strict (l : list string) :
  StronglySorted (fun a b => String.leb a b = true) l -> NoDup l ->
  StronglySorted (fun a b => String.ltb a b = true) l.
Proof.
  induction 1 as [|a t St IH F]; intro Hnd; constructor.
  - apply IH. now apply NoDup_cons_iff in Hnd.
  - apply NoDup_cons_iff in Hnd as [Ha _].
    rewrite Forall_forall in *. intros x Hx.
    destruct (leb_cases a x (F x Hx)) as [->|L]; [contradiction|].
    unfold String.ltb. now rewrite L.
Qed.

(** *** The domains that are built *)

Lemma domains_of_ids (mean_row : list (string * Q)) (ids : list string) :
  map id (domains_of mean_row ids) = filter (yields_domain mean_row) ids.
Proof.
  induction ids as [|n rest IH]; simpl; [reflexivity|].
  unfold yields_domain at 1.
  destruct (Qeq_bool _ 0 && Qeq_bool _ 0); simpl; [exact IH|].
  destruct (String.eqb _ "unknown"); simpl; [exact IH|].
  now rewrite IH.
Qed.

(** An address that [node_id_to_ip] assigns is one of the three sites. *)
Lemma node_ip_cases (n a : string) :
  dict_get Tables.node_id_to_ip n = Some a ->
  a = "192.168.0.38"%string \/ a = "192.168.0.82"%string
  \/ a = "192.168.0.223"%string.
Proof.
  unfold Tables.node_id_to_ip. simpl.
  repeat (destruct (String.eqb n _);
          [intro H; injection H as <-; auto|]).
  discriminate.
Qed.

Lemma default_not_unknown (n : string) :
  String.eqb (dict_get_default Tables.node_id_to_ip n "unknown") "unknown"
  = false ->
  dict_get Tables.node_id_to_ip n
  = Some (dict_get_default Tables.node_id_to_ip n "unknown").
Proof.
  unfold dict_get_default.
  destruct (dict_get Tables.node_id_to_ip n); [reflexivity | discriminate].
Qed.

Lemma domains_of_member (mean_row : list (string * Q)) (ids : list string)
    (x : Domain) :
  In x (domains_of mean_row ids) ->
  In (id x) ids
  /\ nodes x = 1
  /\ dict_get Tables.node_id_to_ip (id x) = Some (address x)
  /\ read_requests x = dict_get_default mean_row (id x ++ "_read") 0%Q
  /\ write_requests x = dict_get_default mean_row (id x ++ "_write") 0%Q
  /\ ~ (write_requests x == 0 /\ read_requests x == 0)%Q.
Proof.
  induction ids as [|n rest IH]; simpl; [contradiction|].
  destruct (Qeq_bool (dict_get_default mean_row (n ++ "_write") 0%Q) 0
            && Qeq_bool (dict_get_default mean_row (n ++ "_read") 0%Q) 0)
    eqn:Ez.
  - intro H. destruct (IH H) as (H1 & H2). split; [now right | exact H2].
  - destruct (String.eqb (dict_get_default Tables.node_id_to_ip n "unknown")
                         "unknown") eqn:Eu.
    + intro H. destruct (IH H) as (H1 & H2). split; [now right | exact H2].
    + intros [<-|H].
      * simpl. split; [now left|]. split; [reflexivity|].
        split.
        { apply default_not_unknown, Eu. }
        split; [reflexivity|]. split; [reflexivity|].
        intros [Hw Hr]. apply Qeq_eq_bool in Hw, Hr.
        rewrite Hw, Hr in Ez. discriminate Ez.
      * destruct (IH H) as (H1 & H2). split; [now right | exact H2].
Qed.

(** (X14) Every domain that [build_domains_from_pred_mean] builds carries one
    vote, the rates of its two columns (0 for a missing column), not both
    zero, and the address that [node_id_to_ip] gives its id; that address is
    a site of the latency table and has a cluster identity on port 2379. *)
Theorem built_domains_are_resolvable :
  forall (pred : option (list (string * Q))) (x : Domain),
    In x (build_domains_from_pred_mean pred) ->
    nodes x = 1
    /\ dict_get Tables.node_id_to_ip (id x) = Some (address x)
    /\ dict_mem Tables.ip_to_index (address x) = true
    /\ dict_mem Tables.IpToId (address x ++ ":2379") = true
    /\ (exists mean_row,
          pred = Some mean_row
          /\ read_requests x = dict_get_default mean_row (id x ++ "_read") 0%Q
          /\ write_requests x
             = dict_get_default mean_row (id x ++ "_write") 0%Q)
    /\ ~ (write_requests x == 0 /\ read_requests x == 0)%Q.
Proof.
  intros [mean_row|] x Hx; [|contradiction].
  unfold build_domains_from_pred_mean in Hx.
  apply domains_of_member in Hx as (_ & Hn & Ha & Hr & Hw & Hz).
  split; [exact Hn|]. split; [exact Ha|].
  destruct (node_ip_cases _ _ Ha) as [E|[E|E]]; rewrite E;
    (split; [reflexivity|]); (split; [reflexivity|]);
    (split; [exists mean_row; auto | exact Hz]).
Qed.

Lemma built_domains_are_resolvable_witness :
  dict_mem Tables.IpToId
    (address (mkDomain "933ca51d2bb602b8" "192.168.0.38" 1 0 7) ++ ":2379")
  = true.
Proof.
  apply (built_domains_are_resolvable
           (Some [("933ca51d2bb602b8_write"%string, 7%Q);
                  ("999_read"%string, 3%Q)])
           (mkDomain "933ca51d2bb602b8" "192.168.0.38" 1 0 7)).
  vm_compute. left. reflexivity.
Defined.

(** (X15) The domains are built in strictly ascending order of their ids, so
    no id occurs twice. *)
Theorem built_domains_ascend :
  forall pred : option (list (string * Q)),
    StronglySorted (fun a b => String.ltb a b = true)
                   (map id (build_domains_from_pred_mean pred))
    /\ NoDup (map id (build_domains_from_pred_mean pred)).
Proof.
  intros [mean_row|]; [|split; constructor].
  unfold build_domains_from_pred_mean. rewrite domains_of_ids.
  set (ids := nodup string_dec (column_ids (map fst mean_row))).
  assert (NoDup (StringSort.sort ids)) as Hnd.
  { eapply Permutation_NoDup; [apply StringSort.Permuted_sort|].
    apply NoDup_nodup. }
  assert (NoDup (filter (yields_domain mean_row) (StringSort.sort ids))) as Hnf
    by (apply NoDup_filter, Hnd).
  split; [|exact Hnf].
  apply sorted_strict; [|exact Hnf].
  apply sorted_filter, sorted_ids.
Qed.

(** (X16) An empty or missing frame, and a frame without any column named
    [..._write] or [..._read], build no domain. *)
Theorem no_columns_no_domains :
  build_domains_from_pred_mean None = []
  /\ forall mean_row,
       Forall (fun c => endswith (fst c) "_write" = false
                        /\ endswith (fst c) "_read" = false) mean_row ->
       build_domains_from_pred_mean (Some mean_row) = [].
Proof.
  split; [reflexivity|]. intros mean_row H.
  unfold build_domains_from_pred_mean.
  assert (column_ids (map fst mean_row) = []) as ->.
  { induction H as [|c rest [Hw Hr] _ IH]; simpl; [reflexivity|].
    now rewrite Hw, Hr. }
  reflexivity.
Qed.

Lemma no_columns_no_domains_witness :
  build_domains_from_pred_mean (Some [("timestamp"%string, 5%Q)]) = [].
Proof.
  apply (proj2 no_columns_no_domains). repeat constructor.
Defined.

End ProjectorFacts.

(** ** From the projection to the transfer command *)

Module PipelineFacts.

Import PredictLeader PredictLeaderFacts PredictLeaderMore Projector
       ProjectorFacts.

Local Open Scope string_scope.

(** (X17) When the domains of a pass come from [build_domains_from_pred_mean],
    every transfer command of the pass names the cluster identity that
    [IpToId] holds for the target on port 2379, never the placeholder
    [unknown], and the target is one of the built domains at another
    address than the local one. *)
Theorem projected_target_has_identity :
  forall (h : host) (st : loop_state) (i : tick_input)
         (pred : option (list (string * Q))) (argv : list string),
    tick_forecast i = Projected (build_domains_from_pred_mean pred) ->
    In (RunEtcdctl argv) (effects_of (snd (tick h st i))) ->
    exists b,
      In b (build_domains_from_pred_mean pred)
      /\ address b <> detected_ip h
      /\ argv = transfer_argv (detected_ip h) (address b)
      /\ dict_get Tables.IpToId (address b ++ ":2379") = Some (nth 3 argv "")
      /\ nth 3 argv "" <> "unknown".
Proof.
  intros h st i pred argv Hf Hin.
  destruct (tick_cases h st i)
    as [[Hc _]|(ds & b & Hf' & _ & Hb & Hself & _ & _ & He)].
  - rewrite Hc in Hin. contradiction.
  - rewrite Hf in Hf'. injection Hf' as <-.
    exists b. split; [exact Hb|]. split; [exact Hself|].
    assert (argv = transfer_argv (detected_ip h) (address b)) as ->.
    { apply (transfer_command_shape (tick_collab i)).
      rewrite He in Hin.
      destruct (check_and_transfer_leader (tick_collab i) (detected_ip h)
                  (address b)) as [effects [r|e]]; simpl in *; [|exact Hin].
      apply in_app_or in Hin. destruct Hin as [Hin|[Hin|[]]];
        [exact Hin | discriminate Hin]. }
    split; [reflexivity|].
    destruct pred as [mean_row|]; [|contradiction].
    unfold build_domains_from_pred_mean in Hb.
    apply domains_of_member in Hb as (_ & _ & Ha & _).
    unfold transfer_argv.
    destruct (node_ip_cases _ _ Ha) as [E|[E|E]]; rewrite E;
      (split; [reflexivity | discriminate]).
Qed.

Lemma projected_target_has_identity_witness :
  exists b,
    In b (build_domains_from_pred_mean
            (Some [("933ca51d2bb602b8_write", 7%Q);
                   ("933ca51d2bb602b8_read", 2%Q)]))
    /\ address b <> detected_ip host223
    /\ transfer_argv "192.168.0.223" "192.168.0.38"
       = transfer_argv (detected_ip host223) (address b)
    /\ dict_get Tables.IpToId (address b ++ ":2379")
       = Some (nth 3 (transfer_argv "192.168.0.223" "192.168.0.38") "")
    /\ nth 3 (transfer_argv "192.168.0.223" "192.168.0.38") "" <> "unknown".
Proof.
  apply (projected_target_has_identity host223 fresh_loop
           (mkTick (Projected
                      (build_domains_from_pred_mean
                         (Some [("933ca51d2bb602b8_write", 7%Q);
                                ("933ca51d2bb602b8_read", 2%Q)])))
                   "t1" all_well)).
  - reflexivity.
  - vm_compute. auto.
Defined.





End PipelineFacts.

(** ** Where the load is *)

Module LocalLoadFacts.

Import PredictLeader PredictLeaderFacts PredictLeaderMore CostSpec
       CostSpec.OfPredictLeader.

Lemma int_of_zero (x : Q) : (x == 0)%Q -> int_of x = 0.
Proof.
  intro H. unfold int_of.
  assert (Qle_bool 0 x = true) as -> by (apply Qle_bool_iff; rewrite H; apply Qle_refl).
  rewrite H. reflexivity.
Qed.

Lemma int_of_nonneg (x : Q) : (0 <= x)%Q -> 0 <= int_of x.
Proof.
  intro H. unfold int_of.
  assert (Qle_bool 0 x = true) as -> by (now apply Qle_bool_iff).
  change 0 with (Qfloor 0). now apply Qfloor_resp_le.
Qed.

Lemma charge_nonneg (L i : Domain) :
  (0 <= read_requests i + write_requests i)%Q -> 0 <= charge L i.
Proof.
  intro H. unfold charge. apply int_of_nonneg.
  apply Qmult_le_0_compat; [exact H|].
  unfold d. destruct (String.eqb (id i) (id L)); [apply Qle_refl|].
  change 0%Q with (inject_Z 0). rewrite <- Zle_Qle.
  apply TablesFacts.get_latency_nonneg.
Qed.

Lemma zsum_nonneg (l : list Z) : Forall (fun x => 0 <= x) l -> 0 <= zsum l.
Proof.
  induction 1 as [|x rest Hx _ IH]; simpl; lia.
Qed.

Lemma zsum_zero (l : list Z) : Forall (fun x => x = 0) l -> zsum l = 0.
Proof.
  induction 1 as [|x rest Hx _ IH]; simpl; lia.
Qed.

(** (X13) For domains with whole-number rates of at most [2^40] and at
    most [2^53] nodes in total, where the float arithmetic is exact and
    nothing raises: with no negative rate, no candidate has a negative total
    latency; and when every request comes from replicas with the id of [b],
    making [b] the leader costs 0, so the leader that is returned costs
    0. *)
Theorem leader_goes_where_the_load_is :
  forall (ds : list Domain) (b : Domain),
    FloatRange.exact_domains ds ->
    In b ds ->
    (forall i, In i ds -> (0 <= read_requests i + write_requests i)%Q) ->
    (forall i, In i ds -> id i <> id b ->
               (read_requests i + write_requests i == 0)%Q) ->
    (forall L, 0 <= calculate_total_latency L ds)
    /\ calculate_total_latency b ds = 0
    /\ exists b', find_optimal_leader ds = (Some b', Some (Fin 0)).
Proof.
  intros ds b _ Hb Hpos Hidle.
  assert (forall L, 0 <= calculate_total_latency L ds) as Hnn.
  { intro L. rewrite predict_cost_formula. apply zsum_nonneg.
    rewrite Forall_forall. intros z Hz. apply in_map_iff in Hz as (i & <- & Hi).
    now apply charge_nonneg, Hpos. }
  assert (calculate_total_latency b ds = 0) as Hzero.
  { rewrite predict_cost_formula. apply zsum_zero.
    rewrite Forall_forall. intros z Hz. apply in_map_iff in Hz as (i & <- & Hi).
    unfold charge, d. apply int_of_zero.
    destruct (String.eqb_spec (id i) (id b)) as [E|E].
    - apply Qmult_0_r.
    - rewrite (Hidle i Hi E). apply Qmult_0_l. }
  split; [exact Hnn|]. split; [exact Hzero|].
  destruct (predict_search_shape ds) as (pre & b' & post & _ & Hf & Hmin & _).
  { intro E. rewrite E in Hb. contradiction. }
  exists b'. rewrite Hf. repeat f_equal.
  specialize (Hmin b Hb). specialize (Hnn b'). lia.
Qed.

Lemma leader_goes_where_the_load_is_witness :
  calculate_total_latency dA [dA; mkDomain "B" "192.168.0.82" 1 0 0] = 0
  /\ exists b',
       find_optimal_leader [dA; mkDomain "B" "192.168.0.82" 1 0 0]
       = (Some b', Some (Fin 0)).
Proof.
  apply (leader_goes_where_the_load_is
           [dA; mkDomain "B" "192.168.0.82" 1 0 0] dA).
  - split; [vm_compute; intro E; discriminate E|].
    repeat constructor; vm_compute; intro E; discriminate E.
  - left. reflexivity.
  - intros i [<-|[<-|[]]]; vm_compute; intro E; discriminate E.
  - intros i [<-|[<-|[]]] Hne; [now contradiction Hne | reflexivity].
Defined.

End LocalLoadFacts.

(** ** More on the artifact watcher *)

Module ReloaderMore.

Import Reloader.

Section Looseness.

Variable signature : Type.
Variable sig_eqb : signature -> signature -> bool.
Hypothesis sig_eqb_spec : forall a b, sig_eqb a b = true <-> a = b.

Let poll : Type := Reloader.poll signature.

(** (X24) The debounce window is measured from the first poll that read a
    signature other than the loaded one, not from the last change: polls
    that read signatures differing from the loaded one, and possibly from
    each other, lead to a reload at the first poll [debounce] or more after
    that first sighting, and the signature then recorded as loaded is the
    one read after the swap. *)
Theorem reload_fires_while_still_changing :
  forall (deb : Q) (loaded : signature) (pre : list poll) (p1 : poll)
         (mid : list poll) (p : poll),
    Forall (fun q => poll_sig q = loaded) pre ->
    poll_sig p1 <> loaded ->
    ~ (poll_now p1 == 0)%Q ->
    Forall (fun q => poll_sig q <> loaded
                     /\ (poll_now q - poll_now p1 < deb)%Q) mid ->
    poll_sig p <> loaded ->
    (deb <= poll_now p - poll_now p1)%Q ->
    ctor_ok p = true ->
    run sig_eqb (worker_init deb loaded) (pre ++ p1 :: mid ++ [p])
    = mkWorker (mkGuard deb (poll_sig_at_mark p) 0) 1 1.
Proof.
  intros deb loaded pre p1 mid p Hpre Hp1 Ht Hmid Hp Hd Hc.
  change (worker_init deb loaded) with (mkWorker (mkGuard deb loaded 0) 0 0).
  rewrite (ReloaderFacts.run_app signature sig_eqb).
  rewrite (ReloaderFacts.run_unchanged signature sig_eqb sig_eqb_spec
             deb loaded pre Hpre).
  rewrite (ReloaderFacts.run_cons signature sig_eqb).
  rewrite (ReloaderFacts.run_first_sighting signature sig_eqb sig_eqb_spec)
    by exact Hp1.
  rewrite (ReloaderFacts.run_app signature sig_eqb).
  rewrite (ReloaderFacts.run_pending_waits signature sig_eqb sig_eqb_spec
             deb (poll_now p1) loaded mid Ht Hmid).
  rewrite (ReloaderFacts.run_cons signature sig_eqb).
  rewrite (ReloaderFacts.run_step_pending signature sig_eqb sig_eqb_spec)
    by assumption.
  apply Qle_bool_iff in Hd. rewrite Hd, Hc. reflexivity.
Qed.

(** (X25) A constructor that raises leaves the guard as it was, so every
    later poll that still reads another signature than the loaded one, at a
    clock no earlier, fires again at once, without a new debounce window,
    and nothing is swapped in. *)
Theorem failed_rebuild_is_retried_at_once :
  forall (deb ts : Q) (loaded : signature) (t s : nat) (p : poll)
         (qs : list poll),
    ~ (ts == 0)%Q ->
    poll_sig p <> loaded ->
    (deb <= poll_now p - ts)%Q ->
    ctor_ok p = false ->
    Forall (fun q => poll_sig q <> loaded /\ (poll_now p <= poll_now q)%Q
                     /\ ctor_ok q = false) qs ->
    run sig_eqb (mkWorker (mkGuard deb loaded ts) t s) (p :: qs)
    = mkWorker (mkGuard deb loaded ts) (S t + List.length qs) s.
Proof.
  intros deb ts loaded t s p qs Hts Hp Hd Hc Hqs.
  rewrite (ReloaderFacts.run_cons signature sig_eqb).
  rewrite (ReloaderFacts.run_step_pending signature sig_eqb sig_eqb_spec)
    by assumption.
  pose proof Hd as Hd'. apply Qle_bool_iff in Hd'. rewrite Hd', Hc.
  clear Hd' Hc Hp. generalize (S t) as n.
  induction Hqs as [|q rest (Hq & Hn & Hcq) _ IH]; intro n.
  - simpl. f_equal. lia.
  - rewrite (ReloaderFacts.run_cons signature sig_eqb).
    rewrite (ReloaderFacts.run_step_pending signature sig_eqb sig_eqb_spec)
      by assumption.
    assert (Qle_bool deb (poll_now q - ts) = true) as ->.
    { apply Qle_bool_iff. eapply Qle_trans; [exact Hd|].
      apply Qplus_le_l. exact Hn. }
    rewrite Hcq, IH. simpl. f_equal. lia.
Qed.

(** One pass keeps the debounce, never lowers the swap count, raises it by
    at most one, and moves the loaded signature only together with it. *)
Lemma run_step_safe (w : worker signature) (p : poll) :
  let w' := run_step sig_eqb w p in
  debounce (wguard w') = debounce (wguard w)
  /\ (swapped w <= swapped w')%nat
  /\ (swapped w' <= triggered w' - triggered w + swapped w)%nat
  /\ (triggered w <= triggered w')%nat
  /\ (swapped w' = swapped w -> last_sig (wguard w') = last_sig (wguard w)).
Proof.
  cbv zeta. unfold run_step, changed_and_stable.
  destruct (sig_eqb (poll_sig p) (last_sig (wguard w)));
    [cbn -[Nat.sub]; repeat split; intros; try lia; reflexivity|].
  destruct (Qeq_bool (last_seen_change_ts (wguard w)) 0);
    [cbn -[Nat.sub]; repeat split; intros; try lia; reflexivity|].
  destruct (Qle_bool (debounce (wguard w))
                     (poll_now p - last_seen_change_ts (wguard w)));
    [|cbn -[Nat.sub]; repeat split; intros; try lia; reflexivity].
  destruct (ctor_ok p); cbn -[Nat.sub]; repeat split; intros; try lia;
    reflexivity.
Qed.

(** (X26) Over any polls the worker keeps its debounce, swaps in a forecaster
    at most as often as it fires, and changes the signature it holds as
    loaded only when it swaps one in. *)
Theorem loaded_signature_moves_only_with_swap :
  forall (polls : list poll) (w : worker signature),
    let w' := run sig_eqb w polls in
    debounce (wguard w') = debounce (wguard w)
    /\ (swapped w <= swapped w')%nat
    /\ (triggered w <= triggered w')%nat
    /\ (swapped w' - swapped w <= triggered w' - triggered w)%nat
    /\ (swapped w' = swapped w -> last_sig (wguard w') = last_sig (wguard w)).
Proof.
  induction polls as [|p rest IH]; intro w; cbv zeta.
  - simpl. repeat split; lia.
  - rewrite (ReloaderFacts.run_cons signature sig_eqb).
    destruct (run_step_safe w p) as (Hd & Hs & Hst & Ht & Hl).
    destruct (IH (run_step sig_eqb w p)) as (Hd' & Hs' & Ht' & Hst' & Hl').
    cbv zeta in *.
    split; [congruence|]. split; [lia|]. split; [lia|]. split; [lia|].
    intro E. rewrite Hl' by lia. apply Hl. lia.
Qed.

End Looseness.

Lemma reload_fires_while_still_changing_witness :
  run String.eqb (worker_init 5 "v1"%string)
      ([old_poll 100]
       ++ mkPoll "v2"%string 115 true "v2"%string
       :: [mkPoll "v3"%string 117 true "v3"%string]
       ++ [mkPoll "v4"%string 121 true "v5"%string])
  = mkWorker (mkGuard 5 "v5"%string 0) 1 1.
Proof.
  apply (reload_fires_while_still_changing string String.eqb String.eqb_eq
           5 "v1"%string [old_poll 100]
           (mkPoll "v2"%string 115 true "v2"%string)
           [mkPoll "v3"%string 117 true "v3"%string]
           (mkPoll "v4"%string 121 true "v5"%string)).
  - repeat constructor.
  - intro E. discriminate E.
  - unfold Qeq. simpl. lia.
  - constructor; [|constructor]. split.
    + intro E. discriminate E.
    + unfold Qlt. simpl. lia.
  - intro E. discriminate E.
  - unfold Qle. simpl. lia.
  - reflexivity.
Defined.

Lemma failed_rebuild_is_retried_at_once_witness :
  run String.eqb (mkWorker (mkGuard 5 "v1"%string 115) 0 0)
      (broken_poll 130 :: [broken_poll 145; broken_poll 160])
  = mkWorker (mkGuard 5 "v1"%string 115) (1 + 2) 0.
Proof.
  apply (failed_rebuild_is_retried_at_once string String.eqb String.eqb_eq
           5 115 "v1"%string 0%nat 0%nat (broken_poll 130)
           [broken_poll 145; broken_poll 160]).
  - unfold Qeq. simpl. lia.
  - intro E. discriminate E.
  - unfold Qle. simpl. lia.
  - reflexivity.
  - repeat constructor; try (intro E; discriminate E);
      unfold Qle; simpl; lia.
Defined.

Lemma loaded_signature_moves_only_with_swap_witness :
  last_sig (wguard (run String.eqb (worker_init 5 "v1"%string)
                        [new_poll 115; broken_poll 130]))
  = "v1"%string.
Proof.
  apply (loaded_signature_moves_only_with_swap string String.eqb
           [new_poll 115; broken_poll 130] (worker_init 5 "v1"%string)).
  reflexivity.
Defined.

End ReloaderMore.

(** ** Quorum size, input order and failed copies *)

Module Remaining.

Import PredictLeader PredictLeaderFacts PredictLeaderMore.

(** (X8) With at least one vote and at most [2^53] votes in total, where
    the float division of [find_optimal_leader] is exact, the quorum size of
    [moveleader.py] is a strict majority of the votes that the votes can
    reach: it is at least 1, at most the total, more than half of it, and
    one vote fewer is no longer more than half. *)
Theorem quorum_is_strict_majority :
  forall ds : list MoveLeader.Domain,
    1 <= zsum (map MoveLeader.nodes ds) ->
    FloatRange.exact_total (zsum (map MoveLeader.nodes ds)) ->
    let total := zsum (map MoveLeader.nodes ds) in
    let q := MoveLeader.quorum_of ds in
    1 <= q <= total /\ total < 2 * q /\ 2 * (q - 1) <= total.
Proof.
  intros ds H _ total q. subst total q. unfold MoveLeader.quorum_of.
  pose proof (Z.div_mod (zsum (map MoveLeader.nodes ds)) 2).
  pose proof (Z.mod_pos_bound (zsum (map MoveLeader.nodes ds)) 2).
  lia.
Qed.

Lemma quorum_is_strict_majority_witness :
  1 <= MoveLeader.quorum_of MoveLeader.fixture
       <= zsum (map MoveLeader.nodes MoveLeader.fixture)
  /\ zsum (map MoveLeader.nodes MoveLeader.fixture)
     < 2 * MoveLeader.quorum_of MoveLeader.fixture
  /\ 2 * (MoveLeader.quorum_of MoveLeader.fixture - 1)
     <= zsum (map MoveLeader.nodes MoveLeader.fixture).
Proof.
  apply (quorum_is_strict_majority MoveLeader.fixture).
  - vm_compute. intro E. discriminate E.
  - vm_compute. intro E. discriminate E.
Defined.

(** (X12) In [predict_leader.py] the total latency of a candidate does not
    depend on the order of the domains. *)
Theorem predict_cost_ignores_order :
  forall (L : Domain) (ds ds' : list Domain),
    Permutation ds ds' ->
    calculate_total_latency L ds = calculate_total_latency L ds'.
Proof.
  intros L ds ds' P. rewrite !predict_cost_formula.
  apply ListFacts.zsum_perm, Permutation_map, P.
Qed.

Lemma predict_cost_ignores_order_witness :
  calculate_total_latency dB fixture = calculate_total_latency dB [dC; dB; dA].
Proof.
  apply predict_cost_ignores_order.
  apply Permutation_sym, (Permutation_rev [dC; dB; dA]).
Defined.

(** (X20) A pass that sets out to migrate while the snapshot is missing or
    while [scp] fails ends in the exception of the migration step: no
    transfer command is run, no timing row and no metrics row are written,
    the snapshot is where it was, and the decision row naming the target is
    on disk already. *)
Theorem failed_copy_crashes_the_pass :
  forall (h : host) (st : loop_state) (i : tick_input)
         (ds : list Domain) (b : Domain),
    tick_forecast i = Projected ds ->
    fst (find_optimal_leader ds) = Some b ->
    address b <> ""%string ->
    address b <> detected_ip h ->
    snapshot_exists (tick_collab i) = false
    \/ scp_exit (tick_collab i) <> Exit0 ->
    (exists effects e,
       snd (tick h st i) = Crashed effects e
       /\ Forall (fun x => match x with RunScp _ => True | _ => False end)
                 effects
       /\ snapshot_left (tick_collab i) effects
          = snapshot_exists (tick_collab i))
    /\ Logger.buffer (logger (fst (tick h st i))) = []
    /\ Logger.file (logger (fst (tick h st i)))
       = Some (LoggerRuns.ensured (Logger.file (logger st))
               ++ Logger.buffer (logger st)
               ++ [[tick_clock i; address b]]).
Proof.
  intros h st i ds b Hf Hsel Hne Hself Hfail.
  destruct (tick_cases h st i)
    as [[Hc _]|(ds' & b' & Hf' & Hsel' & _ & _ & _ & Hst & He)].
  - destruct (tick_migrates h st i ds b Hf Hsel Hne Hself) as [Hm _].
    rewrite Hc in Hm. discriminate.
  - rewrite Hf in Hf'. injection Hf' as <-.
    rewrite Hsel in Hsel'. injection Hsel' as <-.
    rewrite He, Hst. split.
    + unfold check_and_transfer_leader, scp_to_host, snapshot_left.
      destruct (tick_collab i) as [ex sc et]. simpl in *.
      destruct Hfail as [->|Hsc].
      * simpl. eexists _, _. repeat split. constructor.
      * destruct ex; simpl; [|eexists _, _; repeat split; constructor].
        destruct sc; [now contradiction Hsc| |];
          simpl; eexists _, _; repeat split; repeat constructor.
    + destruct (logger st) as [p bf f o]. cbn [logger].
      rewrite LoggerRunsFacts.record_step. split; reflexivity.
Qed.

Lemma failed_copy_crashes_the_pass_witness :
  Logger.file
    (logger (fst (tick host223 fresh_loop
                    (mkTick (Projected fixture) "t1"
                            (mkCollab true ExitNonZero Exit0)))))
  = Some (LoggerRuns.ensured (Logger.file (logger fresh_loop))
          ++ Logger.buffer (logger fresh_loop)
          ++ [[tick_clock (mkTick (Projected fixture) "t1"
                                  (mkCollab true ExitNonZero Exit0));
               address dA]]).
Proof.
  destruct (failed_copy_crashes_the_pass host223 fresh_loop
              (mkTick (Projected fixture) "t1"
                      (mkCollab true ExitNonZero Exit0))
              fixture dA) as (_ & _ & H).
  - reflexivity.
  - vm_compute. reflexivity.
  - intro E. discriminate E.
  - intro E. discriminate E.
  - right. intro E. discriminate E.
  - exact H.
Defined.

End Remaining.
